(** * A shallow embedding of [organizer.py]

    The file organizer scans a directory, classifies every file by its
    extension and moves it into a category folder below the organised
    directory, recording each move so that [undo_organization] can replay
    the moves backwards.

    The development is organised as follows:
    - [PyStr]: the [str] and [pathlib] name operations the program uses;
    - [Filesystem]: a directory tree with ordered entries and the
      [pathlib]/[shutil] operations on it;
    - the organizer itself ([get_category], [should_ignore],
      [organize_file], [organize_directory], [save_log], [run],
      [undo_organization]), written in a small state-and-exception monad;
    - the vocabulary of the properties and a few example directories;
    - the properties: category resolution, ignore patterns, allocation of
      the destination, dry runs, live moves, the restore loop and the end
      of undo, the traversal of directories, and organize followed by
      undo.

    Modelling choices.  Paths are lists of components below the
    organised directory; a category name is one component.  Directory
    entries keep their enumeration order.  Text is ASCII.  Time is a
    counter.  The two loops of the program that Rocq cannot see to end
    take fuel: the duplicate-name loop, for which one more than the
    number of entries of the category folder is shown to be enough, and
    the nesting of [organize_directory], shown never to exceed two. *)

From Stdlib Require Import String Ascii List Bool Arith Lia.
From Stdlib Require Import Decimal DecimalString DecimalNat.
Import ListNotations.

Open Scope string_scope.
Open Scope list_scope.
Open Scope nat_scope.

(* ================================================================== *)
(** ** Python strings and path names *)

Module PyStr.

(** [s.startswith(p)]. *)
Definition startswith (s p : string) : bool := String.prefix p s.

(** [s.endswith(p)]: the last [len(p)] characters of [s] are [p]. *)
Definition endswith (s p : string) : bool :=
  let n := String.length s in
  let m := String.length p in
  (m <=? n) && String.eqb (String.substring (n - m) m s) p.

(** [p in s]: [p] occurs in [s] as a contiguous substring. *)
Fixpoint contains (s p : string) : bool :=
  String.prefix p s ||
  match s with
  | EmptyString => false
  | String _ s' => contains s' p
  end.

(** [s[1:]]. *)
Definition drop_first (s : string) : string :=
  match s with
  | EmptyString => EmptyString
  | String _ s' => s'
  end.

(** [s[:-1]]. *)
Definition drop_last (s : string) : string :=
  String.substring 0 (String.length s - 1) s.

(** [c.lower()] on the ASCII range: only [A]..[Z] change. *)
Definition lower_ascii (c : ascii) : ascii :=
  let n := nat_of_ascii c in
  if (65 <=? n) && (n <=? 90) then ascii_of_nat (n + 32) else c.

(** [s.lower()], on ASCII text. *)
Fixpoint lower (s : string) : string :=
  match s with
  | EmptyString => EmptyString
  | String c s' => String (lower_ascii c) (lower s')
  end.

(** [str(n)] for a non-negative integer: its decimal digits. *)
Definition str_of_nat (n : nat) : string :=
  NilEmpty.string_of_uint (Nat.to_uint n).

(** Position of the last ["."] of [s], as [s.rfind('.')]. *)
Fixpoint rfind_dot (s : string) : option nat :=
  match s with
  | EmptyString => None
  | String c s' =>
      match rfind_dot s' with
      | Some i => Some (S i)
      | None => if Ascii.eqb c "."%char then Some 0 else None
      end
  end.

(** [PurePath.suffix]: the part of the name from its last dot on, when
    that dot is neither the first nor the last character (the rule of
    [pathlib] up to Python 3.13). *)
Definition suffix (name : string) : string :=
  match rfind_dot name with
  | Some i =>
      if (0 <? i) && (i <? String.length name - 1)
      then String.substring i (String.length name - i) name
      else EmptyString
  | None => EmptyString
  end.

(** [PurePath.stem]: the name without its suffix. *)
Definition stem (name : string) : string :=
  match rfind_dot name with
  | Some i =>
      if (0 <? i) && (i <? String.length name - 1)
      then String.substring 0 i name
      else name
  | None => name
  end.

(** [s.strip()] removes blanks at both ends. *)
Definition is_space (c : ascii) : bool :=
  let n := nat_of_ascii c in
  (n =? 32) || ((9 <=? n) && (n <=? 13)).

Fixpoint lstrip (s : string) : string :=
  match s with
  | EmptyString => EmptyString
  | String c s' => if is_space c then lstrip s' else s
  end.

Fixpoint rstrip (s : string) : string :=
  match s with
  | EmptyString => EmptyString
  | String c s' =>
      match rstrip s' with
      | EmptyString => if is_space c then EmptyString else String c EmptyString
      | r => String c r
      end
  end.

Definition strip (s : string) : string := rstrip (lstrip s).

End PyStr.

(* ================================================================== *)
(** ** Categories and ignore patterns *)

(** The category table is a Python [dict]: it is iterated in insertion
    order, so it is kept as an association list. *)
Definition category_map := list (string * list string).

Definition DEFAULT_CATEGORIES : category_map :=
  [ ("Images", [".jpg"; ".jpeg"; ".png"; ".gif"; ".bmp"; ".svg"; ".webp"; ".ico"; ".tiff"]);
    ("Documents", [".pdf"; ".doc"; ".docx"; ".txt"; ".xlsx"; ".xls"; ".pptx"; ".ppt"; ".odt"; ".rtf"]);
    ("Videos", [".mp4"; ".avi"; ".mkv"; ".mov"; ".flv"; ".wmv"; ".webm"; ".m4v"]);
    ("Audio", [".mp3"; ".wav"; ".flac"; ".aac"; ".ogg"; ".wma"; ".m4a"]);
    ("Archives", [".zip"; ".rar"; ".7z"; ".tar"; ".gz"; ".bz2"; ".xz"]);
    ("Code", [".py"; ".js"; ".html"; ".css"; ".java"; ".cpp"; ".c"; ".h"; ".json"; ".xml"; ".yaml"; ".yml"]);
    ("Executables", [".exe"; ".msi"; ".dmg"; ".pkg"; ".deb"; ".rpm"; ".app"]);
    ("Books", [".epub"; ".mobi"; ".azw"; ".azw3"]) ].

(** [x in extensions] for a list of strings. *)
Definition str_in_list (x : string) (l : list string) : bool :=
  existsb (String.eqb x) l.

(** [FileOrganizer.get_category]: the first category, in iteration order,
    whose extension list holds the lowercased extension. *)
Fixpoint get_category (categories : category_map) (file_extension : string) : string :=
  match categories with
  | [] => "Others"
  | (category, extensions) :: rest =>
      if str_in_list (PyStr.lower file_extension) extensions
      then category
      else get_category rest file_extension
  end.

(** [FileOrganizer.load_ignore_patterns], given the lines of the
    [.organizerignore] file ([None] when the file is absent). *)
Definition load_ignore_patterns (lines : option (list string)) : list string :=
  [".organizer_log.json"; ".organizerignore"] ++
  match lines with
  | None => []
  | Some ls =>
      filter (fun line => negb (String.eqb line "") && negb (PyStr.startswith line "#"))
             (map PyStr.strip ls)
  end.

(** [FileOrganizer.should_ignore] on the file's name: the loop over the
    patterns, returning at the first one that matches. *)
Fixpoint should_ignore (ignore_patterns : list string) (file_name : string) : bool :=
  match ignore_patterns with
  | [] => false
  | pattern :: rest =>
      if PyStr.startswith pattern "*" then
        if PyStr.endswith file_name (PyStr.drop_first pattern) then true
        else should_ignore rest file_name
      else if PyStr.endswith pattern "*" then
        if PyStr.startswith file_name (PyStr.drop_last pattern) then true
        else should_ignore rest file_name
      else if PyStr.contains file_name pattern then true
      else should_ignore rest file_name
  end.

(* ================================================================== *)
(** ** The file system *)

(** A path is the list of its components below the organised directory
    ([self.directory], always absolute after [resolve()]); the organised
    directory itself is [[]]. *)
Definition path := list string.

(** One entry of the run log: [{'old_path', 'new_path', 'timestamp'}]. *)
Record operation := mkOp {
  old_path : path;
  new_path : path;
  timestamp : nat
}.

(** What a file holds.  JSON text is kept parsed: a run log is the
    object that [json.dump] wrote, anything else is text that
    [json.load] does not read as a log. *)
Inductive fdata :=
| Text (s : string)
| LogJson (ts : nat) (ops : list operation).

(** A node of the tree.  A directory lists its entries in enumeration
    order.  The flag of a file tells whether the system lets it be
    renamed or deleted; the flag of a directory whether it can be
    listed. *)
#[warnings="-register-all"] Inductive node :=
| File (perm : bool) (data : fdata)
| Dir (perm : bool) (entries : list (string * node)).

Inductive exn :=
| PermissionError
| FileExistsError
| FileNotFoundError
| NotADirectoryError
| IsADirectoryError
| OSError
| ShutilError
| JSONDecodeError
| Diverges.

Inductive outcome (A : Type) :=
| Val (a : A)
| Exc (e : exn).
Arguments Val {A} a.
Arguments Exc {A} e.

Module Filesystem.

Definition entries := list (string * node).

Fixpoint get_entry (c : string) (es : entries) : option node :=
  match es with
  | [] => None
  | (k, v) :: r => if String.eqb k c then Some v else get_entry c r
  end.

Definition del_entry (c : string) (es : entries) : entries :=
  filter (fun kv => negb (String.eqb (fst kv) c)) es.

(** Replace the entry called [c], or append it when there is none. *)
Fixpoint put_entry (c : string) (n : node) (es : entries) : entries :=
  match es with
  | [] => [(c, n)]
  | (k, v) :: r =>
      if String.eqb k c then (k, n) :: r else (k, v) :: put_entry c n r
  end.

Fixpoint upd_entry (c : string) (g : node -> node) (es : entries) : entries :=
  match es with
  | [] => []
  | (k, v) :: r =>
      if String.eqb k c then (k, g v) :: r else (k, v) :: upd_entry c g r
  end.

Fixpoint lookup (t : node) (p : path) {struct p} : option node :=
  match p with
  | [] => Some t
  | c :: p' =>
      match t with
      | File _ _ => None
      | Dir _ es =>
          match get_entry c es with
          | Some t' => lookup t' p'
          | None => None
          end
      end
  end.

(** Apply [f] to the entries of the directory at [p]. *)
Fixpoint alter_dir (f : entries -> entries) (p : path) (t : node) {struct p} : node :=
  match t with
  | File _ _ => t
  | Dir pm es =>
      match p with
      | [] => Dir pm (f es)
      | c :: p' => Dir pm (upd_entry c (alter_dir f p') es)
      end
  end.

Definition parent (p : path) : path := removelast p.
Definition basename (p : path) : string := last p "".

Definition path_eqb (p q : path) : bool :=
  if list_eq_dec string_dec p q then true else false.

Fixpoint is_prefix (p q : path) : bool :=
  match p, q with
  | [], _ => true
  | a :: p', b :: q' => String.eqb a b && is_prefix p' q'
  | _ :: _, [] => false
  end.

(** [Path.exists()], [Path.is_dir()]. *)
Definition exists_ (t : node) (p : path) : bool :=
  match lookup t p with Some _ => true | None => false end.

Definition is_dir (t : node) (p : path) : bool :=
  match lookup t p with Some (Dir _ _) => true | _ => false end.

Definition detach (p : path) (t : node) : node :=
  alter_dir (del_entry (basename p)) (parent p) t.

Definition attach (p : path) (n : node) (t : node) : node :=
  alter_dir (put_entry (basename p) n) (parent p) t.

(** [list(Path.iterdir())]: the names of the entries. *)
Definition iterdir (t : node) (p : path) : outcome (list string) :=
  match lookup t p with
  | Some (Dir true es) => Val (map fst es)
  | Some (Dir false _) => Exc PermissionError
  | Some (File _ _) => Exc NotADirectoryError
  | None => Exc FileNotFoundError
  end.

(** [Path.mkdir(exist_ok=True)]. *)
Definition mkdir (p : path) (t : node) : outcome node :=
  match lookup t p with
  | Some (Dir _ _) => Val t
  | Some (File _ _) => Exc FileExistsError
  | None =>
      if is_dir t (parent p)
      then Val (attach p (Dir true []) t)
      else Exc FileNotFoundError
  end.

(** [Path.mkdir(parents=True, exist_ok=True)]: every missing directory
    on the way is created; a file on the way is an error. *)
Fixpoint mkdir_parents (p : path) (t : node) {struct p} : outcome node :=
  match t with
  | File _ _ => Exc FileExistsError
  | Dir pm es =>
      match p with
      | [] => Val t
      | c :: p' =>
          match get_entry c es with
          | Some t' =>
              match mkdir_parents p' t' with
              | Val t'' => Val (Dir pm (put_entry c t'' es))
              | Exc e => Exc e
              end
          | None =>
              match mkdir_parents p' (Dir true []) with
              | Val t'' => Val (Dir pm (put_entry c t'' es))
              | Exc e => Exc e
              end
          end
      end
  end.

(** [os.rename(src, dst)] with POSIX semantics. *)
Definition os_rename (src dst : path) (t : node) : outcome node :=
  match lookup t src with
  | None => Exc FileNotFoundError
  | Some n =>
      match src, dst with
      | [], _ | _, [] => Exc OSError
      | _, _ =>
          if path_eqb src dst then Val t
          else if match n with File false _ => true | _ => false end
          then Exc PermissionError
          else if is_prefix src dst then Exc OSError
          else if negb (is_dir t (parent dst)) then Exc FileNotFoundError
          else
            match lookup t dst, n with
            | Some (Dir _ _), File _ _ => Exc IsADirectoryError
            | Some (Dir _ (_ :: _)), Dir _ _ => Exc OSError
            | Some (File _ _), Dir _ _ => Exc NotADirectoryError
            | _, _ => Val (attach dst n (detach src t))
            end
      end
  end.

(** [shutil.move(src, dst)] on one volume: a destination that is a
    directory receives the source under the source's own name. *)
Definition shutil_move (src dst : path) (t : node) : outcome node :=
  if is_dir t dst then
    if path_eqb src dst then Val t
    else
      let real_dst := dst ++ [basename src] in
      if exists_ t real_dst then Exc ShutilError
      else os_rename src real_dst t
  else os_rename src dst t.

(** [Path.unlink()]. *)
Definition unlink (p : path) (t : node) : outcome node :=
  match lookup t p with
  | Some (File true _) => Val (detach p t)
  | Some (File false _) => Exc PermissionError
  | Some (Dir _ _) => Exc IsADirectoryError
  | None => Exc FileNotFoundError
  end.

(** [Path.rmdir()]. *)
Definition rmdir (p : path) (t : node) : outcome node :=
  match lookup t p with
  | Some (Dir _ []) => Val (detach p t)
  | Some (Dir _ (_ :: _)) => Exc OSError
  | Some (File _ _) => Exc NotADirectoryError
  | None => Exc FileNotFoundError
  end.

(** [open(p, 'w')] followed by a write of [d]: the file is created or
    overwritten in place. *)
Definition write_file (p : path) (d : fdata) (t : node) : outcome node :=
  match lookup t p with
  | Some (Dir _ _) => Exc IsADirectoryError
  | Some (File false _) => Exc PermissionError
  | Some (File true _) => Val (attach p (File true d) t)
  | None =>
      if is_dir t (parent p)
      then Val (attach p (File true d) t)
      else Exc FileNotFoundError
  end.

(** [open(p, 'r')] followed by a read. *)
Definition read_file (p : path) (t : node) : outcome fdata :=
  match lookup t p with
  | Some (File _ d) => Val d
  | Some (Dir _ _) => Exc IsADirectoryError
  | None => Exc FileNotFoundError
  end.

End Filesystem.

(* ================================================================== *)
(** ** Program state and the monad of the program *)

(** What the program prints, one constructor per message. *)
Inductive event :=
| PermissionDenied (dir : path)
| Entering (name : string)
| DryRunMsg (old_rel new_rel : path)
| Moved (old_rel new_rel : path)
| ErrorMoving (name : string) (e : exn)
| LogSaved (n : nat)
| CouldNotSaveLog (e : exn)
| NotADirectoryMsg
| Organizing (recursive dry_run : bool) (ncategories : nat)
| NoFilesToOrganize
| Summary (dry_run : bool) (files_processed : nat)
| NoLogFile
| ErrorReadingLog (e : exn)
| LogEmpty
| Undoing (n : nat) (ts : nat)
| Skipped (name : string)
| Restored (name : string) (old : path)
| ErrorRestoring (name : string) (e : exn)
| RemovedEmptyFolder (name : string)
| UndoComplete (success_count : nat)
| CouldNotDeleteLog (e : exn).

(** The world the program runs in: the tree below the organised
    directory, the clock read by [datetime.now()], the console, and the
    organizer's own [self.operations]. *)
Record state := mkState {
  fs : node;
  clock : nat;
  stdout : list event;
  operations : list operation
}.

Definition set_fs (t : node) (s : state) : state :=
  mkState t (clock s) (stdout s) (operations s).

Definition M (A : Type) : Type := state -> outcome A * state.

Definition ret {A} (a : A) : M A := fun s => (Val a, s).

Definition raise {A} (e : exn) : M A := fun s => (Exc e, s).

Definition bind {A B} (m : M A) (k : A -> M B) : M B :=
  fun s =>
    match m s with
    | (Val a, s') => k a s'
    | (Exc e, s') => (Exc e, s')
    end.

(** [try: m except Exception as e: h e]. *)
Definition try_except {A} (m : M A) (h : exn -> M A) : M A :=
  fun s =>
    match m s with
    | (Val a, s') => (Val a, s')
    | (Exc e, s') => h e s'
    end.

Notation "x <- m ;; k" := (bind m (fun x => k))
  (at level 61, m at next level, right associativity).
Notation "m ;;; k" := (bind m (fun _ => k))
  (at level 61, right associativity).

Definition print (e : event) : M unit :=
  fun s => (Val tt, mkState (fs s) (clock s) (stdout s ++ [e]) (operations s)).

(** [datetime.now()]: reads the clock, which then moves on. *)
Definition now : M nat :=
  fun s => (Val (clock s), mkState (fs s) (S (clock s)) (stdout s) (operations s)).

Definition record_operation (op : operation) : M unit :=
  fun s => (Val tt, mkState (fs s) (clock s) (stdout s) (operations s ++ [op])).

(** A query of the file system. *)
Definition fs_get {A} (f : node -> A) : M A := fun s => (Val (f (fs s)), s).

(** A file system call that changes the tree or raises. *)
Definition fs_op (f : node -> outcome node) : M unit :=
  fun s =>
    match f (fs s) with
    | Val t => (Val tt, set_fs t s)
    | Exc e => (Exc e, s)
    end.

(** A file system call that returns a value or raises. *)
Definition fs_read {A} (f : node -> outcome A) : M A := fun s => (f (fs s), s).

(** [for x in l: b = f b x]. *)
Fixpoint for_each {A B} (f : B -> A -> M B) (l : list A) (b : B) : M B :=
  match l with
  | [] => ret b
  | x :: r => b' <- f b x ;; for_each f r b'
  end.

(* ================================================================== *)
(** ** The organizer *)

Import Filesystem.

(** The fields of a [FileOrganizer] that are fixed at construction. *)
Record FileOrganizer := mkOrganizer {
  recursive : bool;
  dry_run : bool;
  categories : category_map;
  ignore_patterns : list string
}.

(** [self.directory], [self.log_file]. *)
Definition directory : path := [].
Definition log_file : path := directory ++ [".organizer_log.json"].

(** The duplicate-name loop of [organize_file]:
    [while new_file_path.exists(): ...].  [fuel] bounds the number of
    times the body runs. *)
Fixpoint allocate (fuel : nat) (t : node) (category_path : path)
    (original_stem file_extension : string)
    (new_file_path : path) (counter : nat) : option path :=
  if negb (exists_ t new_file_path) then Some new_file_path
  else
    match fuel with
    | 0 => None
    | S fuel' =>
        let new_filename :=
          (original_stem ++ "_" ++ PyStr.str_of_nat counter ++ file_extension)%string in
        allocate fuel' t category_path original_stem file_extension
                 (category_path ++ [new_filename]) (S counter)
    end.

(** Fuel that is always enough: one more than the number of entries of
    the category folder. *)
Definition allocate_fuel (t : node) (category_path : path) : nat :=
  match lookup t category_path with
  | Some (Dir _ es) => S (length es)
  | _ => 1
  end.

(** [FileOrganizer.organize_file]. *)
Definition organize_file (self : FileOrganizer) (file_path : path) : M bool :=
  let name := basename file_path in
  let file_extension := PyStr.suffix name in
  let category := get_category (categories self) file_extension in
  let category_path := directory ++ [category] in
  (if dry_run self then ret tt else fs_op (mkdir category_path)) ;;;
  let new_file_path := category_path ++ [name] in
  let original_stem := PyStr.stem name in
  found <- fs_get (fun t =>
             allocate (allocate_fuel t category_path) t category_path
                      original_stem file_extension new_file_path 1) ;;
  match found with
  | None => raise Diverges
  | Some new_file_path =>
      if dry_run self then
        print (DryRunMsg file_path new_file_path) ;;; ret true
      else
        try_except
          (fs_op (shutil_move file_path new_file_path) ;;;
           print (Moved file_path new_file_path) ;;;
           ts <- now ;;
           record_operation (mkOp file_path new_file_path ts) ;;;
           ret true)
          (fun e => print (ErrorMoving name e) ;;; ret false)
  end.

(** [name in self.categories.keys()]. *)
Definition is_category (self : FileOrganizer) (name : string) : bool :=
  existsb (fun kv => String.eqb name (fst kv)) (categories self).

(** The body of the loop of [organize_directory], for the entry [name]
    of [current_dir]; [recurse] is [self.organize_directory]. *)
Definition organize_item (recurse : path -> M nat) (self : FileOrganizer)
    (current_dir : path) (files_processed : nat) (name : string) : M nat :=
  let item := current_dir ++ [name] in
  isd <- fs_get (fun t => is_dir t item) ;;
  if isd then
    if path_eqb (parent item) directory && is_category self name
    then ret files_processed
    else if recursive self && path_eqb (parent item) directory then
      print (Entering name) ;;;
      n <- recurse item ;;
      ret (files_processed + n)
    else ret files_processed
  else if should_ignore (ignore_patterns self) name
  then ret files_processed
  else
    ok <- organize_file self item ;;
    ret (if ok then files_processed + 1 else files_processed).

(** [FileOrganizer.organize_directory].  [depth] bounds the nesting of
    the recursive calls. *)
Fixpoint organize_directory (depth : nat) (self : FileOrganizer)
    (current_dir : path) : M nat :=
  match depth with
  | 0 => raise Diverges
  | S depth' =>
      fun s =>
        match iterdir (fs s) current_dir with
        | Exc PermissionError => (print (PermissionDenied current_dir) ;;; ret 0) s
        | Exc e => (Exc e, s)
        | Val items =>
            for_each (organize_item (organize_directory depth' self) self current_dir)
                     items 0 s
        end
  end.

Definition is_nil {A} (l : list A) : bool :=
  match l with [] => true | _ => false end.

(** [FileOrganizer.save_log]. *)
Definition save_log (self : FileOrganizer) : M unit :=
  fun s =>
    if dry_run self || is_nil (operations s) then (Val tt, s)
    else
      try_except
        (fs_op (write_file log_file (Text "")) ;;;
         ts <- now ;;
         fs_op (write_file log_file (LogJson ts (operations s))) ;;;
         print (LogSaved (length (operations s))))
        (fun e => print (CouldNotSaveLog e))
        s.

(** Two levels of calls are all [organize_directory] ever nests. *)
Definition traversal_depth : nat := 2.

(** [FileOrganizer.run]. *)
Definition run (self : FileOrganizer) : M unit :=
  isd <- fs_get (fun t => is_dir t directory) ;;
  if negb isd then print NotADirectoryMsg
  else
    print (Organizing (recursive self) (dry_run self) (length (categories self))) ;;;
    files_processed <- organize_directory traversal_depth self directory ;;
    (if negb (dry_run self) then save_log self else ret tt) ;;;
    if files_processed =? 0 then print NoFilesToOrganize
    else print (Summary (dry_run self) files_processed).

(** [json.load] of the log file. *)
Definition load_log (t : node) : outcome (nat * list operation) :=
  match read_file log_file t with
  | Val (LogJson ts ops) => Val (ts, ops)
  | Val (Text _) => Exc JSONDecodeError
  | Exc e => Exc e
  end.

(** One turn of the restore loop of [undo_organization]. *)
Definition undo_one (success_count : nat) (op : operation) : M nat :=
  let name := basename (new_path op) in
  ex <- fs_get (fun t => exists_ t (new_path op)) ;;
  if negb ex then print (Skipped name) ;;; ret success_count
  else
    try_except
      (fs_op (mkdir_parents (parent (old_path op))) ;;;
       fs_op (shutil_move (new_path op) (old_path op)) ;;;
       print (Restored name (old_path op)) ;;;
       ret (success_count + 1))
      (fun e => print (ErrorRestoring name e) ;;; ret success_count).

(** One turn of the loop that deletes the empty folders. *)
Definition remove_if_empty (_ : unit) (name : string) : M unit :=
  let item := directory ++ [name] in
  isd <- fs_get (fun t => is_dir t item) ;;
  if isd then
    inner <- fs_read (fun t => iterdir t item) ;;
    if is_nil inner then
      try_except
        (fs_op (rmdir item) ;;; print (RemovedEmptyFolder name))
        (fun _ => ret tt)
    else ret tt
  else ret tt.

(** The restore loop, over the operations newest first. *)
Definition restore_all (ops : list operation) : M nat :=
  for_each undo_one (List.rev ops) 0.

(** The loop over the entries of the organised directory. *)
Definition remove_empty_folders : M unit :=
  items <- fs_read (fun t => iterdir t directory) ;;
  for_each remove_if_empty items tt.

(** The last step of [undo_organization]. *)
Definition remove_log (success_count : nat) : M unit :=
  try_except
    (fs_op (unlink log_file) ;;; print (UndoComplete success_count))
    (fun e => print (CouldNotDeleteLog e)).

(** [undo_organization]. *)
Definition undo_organization : M unit :=
  ex <- fs_get (fun t => exists_ t log_file) ;;
  if negb ex then print NoLogFile
  else
    fun s =>
      match load_log (fs s) with
      | Exc e => print (ErrorReadingLog e) s
      | Val (ts, ops) =>
          (if is_nil ops then print LogEmpty
           else
             print (Undoing (length ops) ts) ;;;
             success_count <- restore_all ops ;;
             remove_empty_folders ;;;
             remove_log success_count) s
      end.

(** A fresh organizer ([self.operations = []]) in front of a tree. *)
Definition initial_state (t : node) (clk : nat) : state := mkState t clk [] [].


(* ================================================================== *)
(** ** Vocabulary of the properties *)

(** Two extensions that differ by case only. *)
Definition same_ext (a b : string) : bool :=
  String.eqb (PyStr.lower a) (PyStr.lower b).

(** The category resolver in the words of the specification: the first
    category, in iteration order, that owns the extension, whatever the
    case of its letters; ["Others"] when no category owns it. *)
Fixpoint resolveCategory (categoryMap : category_map) (extension : string) : string :=
  match categoryMap with
  | [] => "Others"
  | (category, extensions) :: rest =>
      if existsb (same_ext extension) extensions then category
      else resolveCategory rest extension
  end.

(** The invariant of a category map: stored extensions are lowercase. *)
Definition all_lowercase (cm : category_map) : bool :=
  forallb (fun kv => forallb (fun e => String.eqb (PyStr.lower e) e) (snd kv)) cm.

(** The map with every occurrence of the entry [e] taken out. *)
Definition without_extension (e : string) (cm : category_map) : category_map :=
  map (fun kv => (fst kv, filter (fun x => negb (String.eqb x e)) (snd kv))) cm.

(** The ignore matcher in the words of the specification: a pattern
    that starts with a star matches a name that ends with the rest of the
    pattern; otherwise a pattern that ends with a star matches a name
    that starts with the rest; otherwise the pattern matches a name that
    contains it. *)
Definition pattern_matches (fileName pattern : string) : Prop :=
  (exists rest, pattern = ("*" ++ rest)%string /\
     exists pre, fileName = (pre ++ rest)%string)
  \/ ((forall rest, pattern <> ("*" ++ rest)%string) /\
      exists body, pattern = (body ++ "*")%string /\
        exists post, fileName = (body ++ post)%string)
  \/ ((forall rest, pattern <> ("*" ++ rest)%string) /\
      (forall body, pattern <> (body ++ "*")%string) /\
      exists pre post, fileName = (pre ++ pattern ++ post)%string).

(** The test that [should_ignore] makes on one pattern. *)
Definition pattern_test (file_name pattern : string) : bool :=
  if PyStr.startswith pattern "*" then
    PyStr.endswith file_name (PyStr.drop_first pattern)
  else if PyStr.endswith pattern "*" then
    PyStr.startswith file_name (PyStr.drop_last pattern)
  else PyStr.contains file_name pattern.

(** The [counter]-th name that the duplicate-name loop tries:
    [f"{original_stem}_{counter}{file_extension}"]. *)
Definition candidate (original_stem file_extension : string) (counter : nat) : string :=
  (original_stem ++ "_" ++ PyStr.str_of_nat counter ++ file_extension)%string.

(** A computation that only reads the tree and prints: from any two
    states with the same tree it gives the same result and prints the
    same messages, and it leaves the tree, the clock and
    [self.operations] as they were. *)
Definition readonly {A} (m : M A) : Prop :=
  forall s, exists r out, forall s2, fs s2 = fs s ->
    m s2 = (r, mkState (fs s2) (clock s2) (stdout s2 ++ out) (operations s2)).

(** An organizer with the built-in categories and no ignore file. *)
Definition default_organizer (recursive dry_run : bool) : FileOrganizer :=
  mkOrganizer recursive dry_run DEFAULT_CATEGORIES (load_ignore_patterns None).

(** An ordinary file, and a file that the system refuses to move. *)
Definition plain (s : string) : node := File true (Text s).

(** A small directory to organise. *)
Definition downloads : node :=
  Dir true [("photo.jpg", plain "p"); ("notes.txt", plain "n");
            ("archive.zip", plain "a")].


(** The message that the restore loop prints for a record is about that
    record: its file was skipped, restored, or could not be restored. *)
Definition about (op : operation) (ev : event) : Prop :=
  let name := Filesystem.basename (new_path op) in
  ev = Skipped name
  \/ ev = Restored name (old_path op)
  \/ exists e, ev = ErrorRestoring name e.

Definition is_restored (ev : event) : bool :=
  match ev with Restored _ _ => true | _ => false end.

(** The number of files that the messages report as restored. *)
Definition count_restored (out : list event) : nat :=
  length (filter is_restored out).

(** A directory after a run that moved two files, one of which has
    since disappeared from its category folder. *)
Definition organized_downloads : node :=
  Dir true [("Documents", Dir true [("b.txt", plain "y")]);
            (".organizer_log.json",
             File true (LogJson 2 [mkOp ["a.txt"] ["Documents"; "a.txt"] 0;
                                   mkOp ["b.txt"] ["Documents"; "b.txt"] 1]))].

(** A directory with a category-named folder two levels down. *)
Definition nested_downloads : node :=
  Dir true [("sub", Dir true [("old.mp3", plain "o");
                              ("Images", Dir true [("x.jpg", plain "x")])])].

(** A directory that holds a file named like a category folder, listed
    before a file of that category. *)
Definition clash_downloads : node :=
  Dir true [("Images", plain "i"); ("b.jpg", plain "b")].

(** The same names with a document first and the picture before the
    file named like its category folder. *)
Definition crash_downloads : node :=
  Dir true [("c.txt", plain "c"); ("b.jpg", plain "b"); ("Images", plain "i")].

(** Every directory that sits at least two levels below the organised
    directory in [t] is still there, with the same content, in [t']. *)
Definition deep_dirs_kept (t t' : node) : Prop :=
  forall q pm es,
    2 <= length q ->
    Filesystem.lookup t q = Some (Dir pm es) ->
    Filesystem.lookup t' q = Some (Dir pm es).

(** The text that [create_sample_ignore] writes, line by line. *)
Definition sample_ignore : list string :=
  [ "# File Organizer Ignore Patterns";
    "# Lines starting with # are comments";
    "";
    "# Ignore specific files";
    "important_file.txt";
    "*.tmp";
    "";
    "# Ignore files starting with certain text";
    "draft_*";
    "";
    "# Ignore files containing certain text";
    "*backup*";
    "";
    "# Ignore all files with certain extensions";
    "*.log";
    "*.cache" ].

(** The table that [create_sample_config] writes. *)
Definition sample_config : category_map :=
  [ ("Images", [".jpg"; ".png"; ".gif"]);
    ("Documents", [".pdf"; ".docx"; ".txt"]);
    ("Videos", [".mp4"; ".mkv"]);
    ("MyCustomCategory", [".custom"; ".special"]) ].

(** Every regular file of [t], other than the one at [src], is still at
    its path in [t'], with the same content and flag. *)
Definition files_kept_except (src : path) (t t' : node) : Prop :=
  forall q pm d,
    q <> src ->
    Filesystem.lookup t q = Some (File pm d) ->
    Filesystem.lookup t' q = Some (File pm d).

(** Every regular file of [t] is still at its path in [t']. *)
Definition files_kept (t t' : node) : Prop :=
  forall q pm d,
    Filesystem.lookup t q = Some (File pm d) ->
    Filesystem.lookup t' q = Some (File pm d).

(** Between [s] and [s'] the program has only appended records to
    [self.operations], and every regular file of [s] is either still at
    its path in [s'], unchanged, or named as the source of one of the
    appended records. *)
Definition tracked (s s' : state) : Prop :=
  exists new,
    operations s' = operations s ++ new
    /\ forall q pm d,
         Filesystem.lookup (fs s) q = Some (File pm d) ->
         Filesystem.lookup (fs s') q = Some (File pm d)
         \/ exists op, In op new /\ old_path op = q.







(** The paths that a traversal started at [current_dir] may hand to
    [organize_file]: the entries of [current_dir] and, from the
    organised directory with recursion on, the entries of its
    subfolders that are not named like a key of the category map. *)
Definition in_reach (self : FileOrganizer) (current_dir q : path) : Prop :=
  (exists x, q = current_dir ++ [x])
  \/ (current_dir = directory /\ recursive self = true
      /\ exists n x, q = [n; x] /\ is_category self n = false).

(** Every regular file of [s] that is out of reach is still at its path
    in [s']. *)
Definition out_of_reach_kept (self : FileOrganizer) (current_dir : path)
    (s s' : state) : Prop :=
  forall q pm d,
    Filesystem.lookup (fs s) q = Some (File pm d) ->
    Filesystem.lookup (fs s') q = Some (File pm d) \/ in_reach self current_dir q.

(* ================================================================== *)
(** ** Facts about the string operations *)

Module PyStrFacts.
Import PyStr.

Lemma length_append (a b : string) :
  String.length (a ++ b)%string = String.length a + String.length b.
Proof. induction a as [|c a IH]; simpl; [reflexivity | now rewrite IH]. Qed.

Lemma append_nil_r (a : string) : (a ++ "")%string = a.
Proof. induction a as [|c a IH]; simpl; [reflexivity | now rewrite IH]. Qed.

Lemma append_assoc (a b c : string) :
  ((a ++ b) ++ c = a ++ (b ++ c))%string.
Proof. induction a as [|x a IH]; simpl; [reflexivity | now rewrite IH]. Qed.

Lemma append_inv_head (a b c : string) :
  (a ++ b = a ++ c)%string -> b = c.
Proof. induction a as [|x a IH]; simpl; intros H; [exact H | injection H; auto]. Qed.

Lemma append_inv_tail (a b c : string) :
  (a ++ c = b ++ c)%string -> a = b.
Proof.
  revert b; induction a as [|x a IH]; intros [|y b] H; simpl in H.
  - reflexivity.
  - apply (f_equal String.length) in H; simpl in H.
    rewrite length_append in H; lia.
  - apply (f_equal String.length) in H; simpl in H.
    rewrite length_append in H; lia.
  - injection H as -> H. f_equal. now apply IH.
Qed.

Lemma substring_skip (a b : string) (m : nat) :
  String.substring (String.length a) m (a ++ b) = String.substring 0 m b.
Proof. induction a as [|c a IH]; simpl; [reflexivity | exact IH]. Qed.

Lemma substring_all (b : string) :
  String.substring 0 (String.length b) b = b.
Proof. induction b as [|c b IH]; simpl; [reflexivity | now rewrite IH]. Qed.

Lemma substring_take (a b : string) :
  String.substring 0 (String.length a) (a ++ b) = a.
Proof.
  induction a as [|c a IH]; simpl.
  - now destruct b.
  - now rewrite IH.
Qed.

Lemma substring_split (s : string) (k : nat) :
  k <= String.length s ->
  s = (String.substring 0 k s ++ String.substring k (String.length s - k) s)%string.
Proof.
  revert k; induction s as [|c s IH]; intros k Hk; simpl in Hk.
  - assert (k = 0) by lia; subst; reflexivity.
  - destruct k as [|k].
    + simpl. now rewrite substring_all.
    + simpl. f_equal. apply IH. lia.
Qed.

(** [startswith] holds exactly when the text begins with the prefix. *)
Lemma startswith_iff (s p : string) :
  startswith s p = true <-> exists post, s = (p ++ post)%string.
Proof.
  unfold startswith. revert s; induction p as [|a p IH]; intros s.
  - simpl. split; [intros _; now exists s | now destruct s].
  - destruct s as [|b s]; simpl.
    + split; [discriminate | intros [post H]; discriminate].
    + destruct (ascii_dec a b) as [->|Hab].
      * rewrite IH. split; intros [post H]; exists post.
        -- now rewrite H.
        -- now injection H.
      * split; [discriminate | intros [post H]; injection H; intros; congruence].
Qed.

(** [endswith] holds exactly when the text finishes with the suffix. *)
Lemma endswith_iff (s p : string) :
  endswith s p = true <-> exists pre, s = (pre ++ p)%string.
Proof.
  unfold endswith. rewrite andb_true_iff, Nat.leb_le, String.eqb_eq. split.
  - intros [Hle Hsub].
    exists (String.substring 0 (String.length s - String.length p) s).
    rewrite (substring_split s (String.length s - String.length p)) at 1 by lia.
    f_equal.
    replace (String.length s - (String.length s - String.length p))
      with (String.length p) by lia.
    exact Hsub.
  - intros [pre ->]. rewrite length_append. split; [lia|].
    replace (String.length pre + String.length p - String.length p)
      with (String.length pre) by lia.
    rewrite substring_skip. apply substring_all.
Qed.

Lemma contains_nil (p : string) : contains "" p = startswith "" p.
Proof. unfold startswith; simpl. now rewrite orb_false_r. Qed.

Lemma contains_cons (c : ascii) (s p : string) :
  contains (String c s) p = startswith (String c s) p || contains s p.
Proof. reflexivity. Qed.

(** [contains] holds exactly when the text has the piece somewhere. *)
Lemma contains_iff (s p : string) :
  contains s p = true <-> exists pre post, s = (pre ++ p ++ post)%string.
Proof.
  induction s as [|c s IH].
  - rewrite contains_nil, startswith_iff. split.
    + intros [post H]. exists "", post. exact H.
    + intros [pre [post H]]. destruct pre; simpl in H.
      * now exists post.
      * discriminate.
  - rewrite contains_cons, orb_true_iff, IH, startswith_iff. split.
    + intros [[post H] | [pre [post H]]].
      * exists "", post. exact H.
      * exists (String c pre), post. simpl. now rewrite H.
    + intros [pre [post H]]. destruct pre as [|x pre]; simpl in H.
      * left. now exists post.
      * right. injection H as _ H. now exists pre, post.
Qed.

Lemma drop_last_app (body : string) (c : ascii) :
  drop_last (body ++ String c "") = body.
Proof.
  unfold drop_last. rewrite length_append. simpl.
  replace (String.length body + 1 - 1) with (String.length body) by lia.
  apply substring_take.
Qed.

Lemma lower_ascii_idem (c : ascii) : lower_ascii (lower_ascii c) = lower_ascii c.
Proof. destruct c as [[] [] [] [] [] [] [] []]; reflexivity. Qed.

Lemma lower_idem (s : string) : lower (lower s) = lower s.
Proof.
  induction s as [|c s IH]; simpl; [reflexivity|].
  now rewrite lower_ascii_idem, IH.
Qed.

End PyStrFacts.

(* ================================================================== *)
(** ** Category resolution *)

Section CategoryResolver.
Import PyStr PyStrFacts.

Lemma str_in_list_lowercase (es : list string) (ext : string) :
  forallb (fun e => String.eqb (lower e) e) es = true ->
  str_in_list (lower ext) es = existsb (same_ext ext) es.
Proof.
  unfold str_in_list, same_ext.
  induction es as [|e es IH]; simpl; [reflexivity|].
  rewrite andb_true_iff, String.eqb_eq. intros [He Hes].
  now rewrite He, IH.
Qed.

Lemma get_category_refines (cm : category_map) (ext : string) :
  all_lowercase cm = true -> get_category cm ext = resolveCategory cm ext.
Proof.
  unfold all_lowercase.
  induction cm as [|[c es] cm IH]; simpl; [reflexivity|].
  rewrite andb_true_iff. intros [Hes Hcm].
  rewrite (str_in_list_lowercase es ext Hes).
  destruct (existsb (same_ext ext) es); [reflexivity | now apply IH].
Qed.

Lemma resolveCategory_owner (pre post : category_map) (c : string)
    (es : list string) (ext : string) :
  (forall kv, In kv pre -> existsb (same_ext ext) (snd kv) = false) ->
  existsb (same_ext ext) es = true ->
  resolveCategory (pre ++ (c, es) :: post) ext = c.
Proof.
  intros Hpre Hes. induction pre as [|[c' es'] pre IH]; simpl.
  - now rewrite Hes.
  - pose proof (Hpre (c', es') (or_introl eq_refl)) as Hc. simpl in Hc.
    rewrite Hc. apply IH.
    intros kv Hkv. apply Hpre. now right.
Qed.

Lemma resolveCategory_absent (cm : category_map) (ext : string) :
  (forall kv, In kv cm -> existsb (same_ext ext) (snd kv) = false) ->
  resolveCategory cm ext = "Others".
Proof.
  induction cm as [|[c es] cm IH]; simpl; intros H; [reflexivity|].
  pose proof (H (c, es) (or_introl eq_refl)) as Hc. simpl in Hc.
  rewrite Hc. apply IH.
  intros kv Hkv. apply H. now right.
Qed.

Lemma get_category_lower (cm : category_map) (ext : string) :
  get_category cm (lower ext) = get_category cm ext.
Proof.
  induction cm as [|[c es] cm IH]; simpl; [reflexivity|].
  now rewrite lower_idem, IH.
Qed.

Lemma str_in_list_filter (x e : string) (es : list string) :
  x <> e ->
  str_in_list x (filter (fun y => negb (String.eqb y e)) es) = str_in_list x es.
Proof.
  intros Hne. unfold str_in_list.
  induction es as [|y es IH]; simpl; [reflexivity|].
  destruct (String.eqb_spec y e) as [->|Hy]; simpl.
  - rewrite IH. destruct (String.eqb_spec x e); [contradiction | reflexivity].
  - now rewrite IH.
Qed.

Lemma lower_never_uppercase (e ext : string) : lower e <> e -> lower ext <> e.
Proof. intros He Heq. apply He. rewrite <- Heq. apply lower_idem. Qed.

End CategoryResolver.

(** C4.  [get_category] lowercases the extension and returns the first
    category, in iteration order, whose list holds it, else ["Others"].
    On a category map whose stored extensions are lowercase, it is the
    case-insensitive resolver of the specification:
    it returns the first category, in iteration order, that owns the
    extension (compared without regard to case), and ["Others"] when no
    category owns it; an extension and its lowercase form resolve
    identically. *)
Theorem C4_get_category_resolves (cm : category_map)
    (Hlow : all_lowercase cm = true) (ext : string) :
  get_category cm ext = resolveCategory cm ext
  /\ (forall pre c es post,
        cm = pre ++ (c, es) :: post ->
        (forall kv, In kv pre -> existsb (same_ext ext) (snd kv) = false) ->
        existsb (same_ext ext) es = true ->
        get_category cm ext = c)
  /\ ((forall kv, In kv cm -> existsb (same_ext ext) (snd kv) = false) ->
      get_category cm ext = "Others")
  /\ get_category cm (PyStr.lower ext) = get_category cm ext
  /\ get_category cm ext =
     match find (fun kv => str_in_list (PyStr.lower ext) (snd kv)) cm with
     | Some kv => fst kv
     | None => "Others"
     end.
Proof.
  split; [|split; [|split; [|split]]].
  - now apply get_category_refines.
  - intros pre c es post Hcm Hpre Hes.
    rewrite (get_category_refines cm ext Hlow), Hcm.
    now apply resolveCategory_owner.
  - intros Habs. rewrite (get_category_refines cm ext Hlow).
    now apply resolveCategory_absent.
  - apply get_category_lower.
  - clear Hlow. induction cm as [|[c es] cm IH]; simpl; [reflexivity|].
    destruct (str_in_list (PyStr.lower ext) es); [reflexivity | exact IH].
Qed.

Lemma C4_get_category_resolves_witness :
  all_lowercase DEFAULT_CATEGORIES = true
  /\ get_category DEFAULT_CATEGORIES ".JPG" = "Images"
  /\ get_category DEFAULT_CATEGORIES ".JPG" = get_category DEFAULT_CATEGORIES ".jpg"
  /\ get_category DEFAULT_CATEGORIES ".xyz" = "Others".
Proof.
  split; [reflexivity|].
  destruct (C4_get_category_resolves DEFAULT_CATEGORIES eq_refl ".JPG")
    as (Href & Hown & _ & Hlow & _).
  destruct (C4_get_category_resolves DEFAULT_CATEGORIES eq_refl ".xyz")
    as (_ & _ & Habs & _ & _).
  split; [|split].
  - apply (Hown [] "Images"
             [".jpg"; ".jpeg"; ".png"; ".gif"; ".bmp"; ".svg"; ".webp"; ".ico"; ".tiff"]
             (tl DEFAULT_CATEGORIES)); [reflexivity | intros kv [] | reflexivity].
  - symmetry. exact Hlow.
  - apply Habs. intros kv Hkv. simpl in Hkv.
    repeat (destruct Hkv as [<- | Hkv]; [reflexivity|]). destruct Hkv.
Defined.

(** C10.  [get_category] lowercases the queried extension only, and
    compares it verbatim with the stored ones: a stored extension with an
    uppercase letter is never matched, so every query resolves as if that
    entry were absent, and falls back to ["Others"] unless another entry
    equals the lowercased query. *)
Theorem C10_uppercase_entry_never_matches (cm : category_map) (e : string)
    (Hup : PyStr.lower e <> e) (ext : string) :
  get_category cm ext = get_category (without_extension e cm) ext
  /\ ((forall kv x, In kv cm -> In x (snd kv) -> x <> e -> x <> PyStr.lower ext) ->
      get_category cm ext = "Others").
Proof.
  assert (Hne : PyStr.lower ext <> e) by now apply lower_never_uppercase.
  split.
  - induction cm as [|[c es] cm IH]; simpl; [reflexivity|].
    rewrite (str_in_list_filter _ _ es Hne), IH. reflexivity.
  - induction cm as [|[c es] cm IH]; simpl; intros H; [reflexivity|].
    assert (Hes : str_in_list (PyStr.lower ext) es = false).
    { unfold str_in_list. apply not_true_is_false. intros Hex.
      apply existsb_exists in Hex. destruct Hex as [x [Hx Heq]].
      apply String.eqb_eq in Heq. subst x.
      apply (H (c, es) (PyStr.lower ext)); simpl; auto. }
    rewrite Hes. apply IH. intros kv x Hkv. apply H. now right.
Qed.

Lemma C10_uppercase_entry_never_matches_witness :
  PyStr.lower ".JPG" <> ".JPG"
  /\ get_category [("Images", [".JPG"])] ".JPG" = "Others"
  /\ get_category [("Images", [".JPG"])] ".jpg" = "Others"
  /\ get_category [("Images", [".JPG"]); ("Pictures", [".jpg"])] ".JPG" = "Pictures".
Proof.
  assert (Hup : PyStr.lower ".JPG" <> ".JPG") by discriminate.
  split; [exact Hup|].
  split; [|split].
  - apply (C10_uppercase_entry_never_matches [("Images", [".JPG"])] ".JPG" Hup ".JPG").
    intros kv x [<- | []] [<- | []] Hx. now elim Hx.
  - apply (C10_uppercase_entry_never_matches [("Images", [".JPG"])] ".JPG" Hup ".jpg").
    intros kv x [<- | []] [<- | []] Hx. now elim Hx.
  - rewrite (proj1 (C10_uppercase_entry_never_matches
               [("Images", [".JPG"]); ("Pictures", [".jpg"])] ".JPG" Hup ".JPG")).
    reflexivity.
Defined.

(* ================================================================== *)
(** ** Ignore patterns *)

Section IgnoreMatcher.
Import PyStr PyStrFacts.

Lemma should_ignore_existsb (pats : list string) (name : string) :
  should_ignore pats name = existsb (pattern_test name) pats.
Proof.
  induction pats as [|p pats IH]; simpl; [reflexivity|].
  unfold pattern_test at 1. rewrite IH.
  destruct (startswith p "*").
  - now destruct (endswith name (drop_first p)).
  - destruct (endswith p "*").
    + now destruct (startswith name (drop_last p)).
    + now destruct (contains name p).
Qed.

Lemma starts_with_star (p : string) :
  startswith p "*" = true <-> exists rest, p = ("*" ++ rest)%string.
Proof. apply startswith_iff. Qed.

Lemma not_starts_with_star (p : string) :
  startswith p "*" = false <-> forall rest, p <> ("*" ++ rest)%string.
Proof.
  split.
  - intros H rest Hp. assert (startswith p "*" = true) by (apply starts_with_star; eauto).
    congruence.
  - intros H. apply not_true_is_false. intros Ht.
    apply starts_with_star in Ht. destruct Ht as [rest Hp]. now apply (H rest).
Qed.

Lemma not_ends_with_star (p : string) :
  endswith p "*" = false <-> forall body, p <> (body ++ "*")%string.
Proof.
  split.
  - intros H body Hp. assert (endswith p "*" = true) by (apply endswith_iff; eauto).
    congruence.
  - intros H. apply not_true_is_false. intros Ht.
    apply endswith_iff in Ht. destruct Ht as [body Hp]. now apply (H body).
Qed.

(** The test of the program on one pattern is the matching relation of
    the specification. *)
Lemma pattern_test_iff (name p : string) :
  pattern_test name p = true <-> pattern_matches name p.
Proof.
  unfold pattern_test, pattern_matches.
  destruct (startswith p "*") eqn:Hs.
  - apply starts_with_star in Hs. destruct Hs as [rest ->]. simpl drop_first.
    rewrite endswith_iff. split.
    + intros Hpre. left. exists rest. split; [reflexivity | exact Hpre].
    + intros [[rest' [Heq Hpre]] | [[Hno _] | [Hno _]]].
      * injection Heq as <-. exact Hpre.
      * now elim (Hno rest).
      * now elim (Hno rest).
  - assert (Hno := proj1 (not_starts_with_star p) Hs).
    destruct (endswith p "*") eqn:He.
    + apply endswith_iff in He. destruct He as [body ->].
      rewrite drop_last_app, startswith_iff. split.
      * intros Hpost. right; left. split; [exact Hno|].
        exists body. split; [reflexivity | exact Hpost].
      * intros [[rest [Heq _]] | [[_ [body' [Heq Hpost]]] | [_ [Hnb _]]]].
        -- now elim (Hno rest).
        -- apply append_inv_tail in Heq. now subst body'.
        -- now elim (Hnb body).
    + assert (Hnb := proj1 (not_ends_with_star p) He).
      rewrite contains_iff. split.
      * intros Hin. right; right. repeat split; assumption.
      * intros [[rest [Heq _]] | [[_ [body [Heq _]]] | [_ [_ Hin]]]].
        -- now elim (Hno rest).
        -- now elim (Hnb body).
        -- exact Hin.
Qed.

End IgnoreMatcher.

(** C5.  [should_ignore] goes through the patterns in order and answers
    true at the first one that matches, false when none does; a pattern
    matches as the specification says (leading star: the name ends with
    the rest; else trailing star: the name starts with the rest; else the
    name contains the pattern), and a pattern with a star at both ends
    is a leading-star pattern only. *)
Theorem C5_should_ignore_matches (pats : list string) (name : string) :
  (should_ignore pats name = true <-> exists p, In p pats /\ pattern_matches name p)
  /\ (forall p rest,
        should_ignore (p :: rest) name =
        if pattern_test name p then true else should_ignore rest name)
  /\ (forall body,
        should_ignore [("*" ++ body ++ "*")%string] name = true <->
        exists pre, name = (pre ++ body ++ "*")%string)
  /\ should_ignore ["*.log"] "file.log" = true
  /\ should_ignore ["draft_*"] "draft_x.txt" = true
  /\ should_ignore ["*.log"; "draft_*"] "keep.txt" = false.
Proof.
  split; [|split; [|split; [|repeat split]]].
  - rewrite should_ignore_existsb, existsb_exists.
    split; intros [p [Hin Hm]]; exists p; (split; [exact Hin|]);
      now apply pattern_test_iff.
  - intros p rest. rewrite !should_ignore_existsb. simpl.
    now destruct (pattern_test name p).
  - intros body. rewrite should_ignore_existsb. cbn [existsb].
    rewrite orb_false_r. unfold pattern_test.
    rewrite (proj2 (starts_with_star ("*" ++ body ++ "*"))
               (ex_intro _ (body ++ "*")%string eq_refl)).
    apply PyStrFacts.endswith_iff.
Qed.

(* ================================================================== *)
(** ** Facts about the file system *)

Module FilesystemFacts.
Import Filesystem.

Lemma lookup_app (t : node) (p q : path) :
  lookup t (p ++ q) =
  match lookup t p with
  | Some t' => lookup t' q
  | None => None
  end.
Proof.
  revert t; induction p as [|c p IH]; intros t; simpl; [reflexivity|].
  destruct t as [pm d | pm es]; [reflexivity|].
  destruct (get_entry c es); [apply IH | reflexivity].
Qed.

Lemma get_entry_in (c : string) (es : entries) (n : node) :
  get_entry c es = Some n -> In c (map fst es).
Proof.
  induction es as [|[k v] es IH]; simpl; [discriminate|].
  destruct (String.eqb_spec k c) as [->|Hk]; [now left | intros H; right; auto].
Qed.

(** A name exists below a directory only if the directory lists it. *)
Lemma exists_child (t : node) (d : path) (name : string) :
  exists_ t (d ++ [name]) = true ->
  exists pm es, lookup t d = Some (Dir pm es) /\ In name (map fst es).
Proof.
  unfold exists_. rewrite lookup_app.
  destruct (lookup t d) as [[pm dt | pm es]|]; simpl; try discriminate.
  destruct (get_entry name es) eqn:Hg; [|discriminate].
  intros _. exists pm, es. split; [reflexivity | eapply get_entry_in; eauto].
Qed.

Lemma parent_child (d : path) (name : string) : parent (d ++ [name]) = d.
Proof. apply removelast_last. Qed.

Lemma basename_child (d : path) (name : string) : basename (d ++ [name]) = name.
Proof. apply last_last. Qed.

Lemma path_eqb_eq (p q : path) : path_eqb p q = true <-> p = q.
Proof.
  unfold path_eqb. destruct (list_eq_dec string_dec p q); split; congruence.
Qed.

Lemma path_eqb_refl (p : path) : path_eqb p p = true.
Proof. now apply path_eqb_eq. Qed.

End FilesystemFacts.

(* ================================================================== *)
(** ** Allocation of the destination path *)

Section PathAllocator.
Import Filesystem FilesystemFacts PyStr PyStrFacts.

(** A name is its stem followed by its suffix. *)
Lemma stem_suffix (name : string) : (stem name ++ suffix name)%string = name.
Proof.
  unfold stem, suffix. destruct (rfind_dot name) as [i|]; [|apply append_nil_r].
  destruct ((0 <? i) && (i <? String.length name - 1)) eqn:Hc; [|apply append_nil_r].
  apply andb_true_iff in Hc. destruct Hc as [_ Hi]. apply Nat.ltb_lt in Hi.
  symmetry. apply substring_split. lia.
Qed.

Lemma str_of_nat_inj (j k : nat) : str_of_nat j = str_of_nat k -> j = k.
Proof.
  unfold str_of_nat. intros H.
  apply DecimalNat.Unsigned.to_uint_inj.
  assert (Hs : Some (Nat.to_uint j) = Some (Nat.to_uint k)).
  { rewrite <- !NilEmpty.usu. now rewrite H. }
  now injection Hs.
Qed.

Lemma candidate_inj (stem ext : string) (j k : nat) :
  candidate stem ext j = candidate stem ext k -> j = k.
Proof.
  unfold candidate. intros H.
  apply append_inv_head in H. apply append_inv_head in H.
  apply append_inv_tail in H. now apply str_of_nat_inj.
Qed.

Lemma NoDup_candidates (stem ext : string) (l : list nat) :
  NoDup l -> NoDup (map (candidate stem ext) l).
Proof.
  induction 1 as [|x l Hx Hl IH]; simpl; constructor; [|exact IH].
  rewrite in_map_iff. intros [y [Hy Hin]].
  apply candidate_inj in Hy. now subst y.
Qed.

Lemma forallb_false_witness {A} (f : A -> bool) (l : list A) :
  forallb f l = false -> exists x, In x l /\ f x = false.
Proof.
  induction l as [|x l IH]; simpl; [discriminate|].
  destruct (f x) eqn:Hx; simpl.
  - intros H. destruct (IH H) as [y [Hy Hf]]. exists y; auto.
  - intros _. exists x; auto.
Qed.

(** Pigeonhole: a directory with [n] entries leaves one of the first
    [n + 1] numbered names free. *)
Lemma free_candidate (t : node) (cp : path) (stem ext : string) :
  exists j, 1 <= j < 1 + allocate_fuel t cp /\
            exists_ t (cp ++ [candidate stem ext j]) = false.
Proof.
  unfold allocate_fuel.
  destruct (lookup t cp) as [[pm d | pm es]|] eqn:Hcp.
  - exists 1. split; [lia|]. unfold exists_. now rewrite lookup_app, Hcp.
  - destruct (forallb (fun j => exists_ t (cp ++ [candidate stem ext j]))
                (seq 1 (S (length es)))) eqn:Hall.
    + exfalso. rewrite forallb_forall in Hall.
      assert (Hincl : incl (map (candidate stem ext) (seq 1 (S (length es))))
                           (map fst es)).
      { intros nm Hnm. apply in_map_iff in Hnm. destruct Hnm as [j [<- Hj]].
        destruct (exists_child t cp _ (Hall j Hj)) as [pm' [es' [Hl Hin]]].
        rewrite Hcp in Hl. now injection Hl as _ <-. }
      apply NoDup_incl_length in Hincl.
      * rewrite !length_map, length_seq in Hincl. lia.
      * apply NoDup_candidates, seq_NoDup.
    + apply forallb_false_witness in Hall. destruct Hall as [j [Hj Hfree]].
      apply in_seq in Hj. exists j. split; [lia | exact Hfree].
  - exists 1. split; [lia|]. unfold exists_. now rewrite lookup_app, Hcp.
Qed.

Lemma allocate_free (t : node) (cp : path) (stem ext : string)
    (fuel : nat) (cur : path) (k : nat) :
  exists_ t cur = false -> allocate fuel t cp stem ext cur k = Some cur.
Proof. intros H. destruct fuel; simpl; now rewrite H. Qed.

Lemma allocate_taken (t : node) (cp : path) (stem ext : string)
    (fuel : nat) (cur : path) (k : nat) :
  exists_ t cur = true ->
  allocate (S fuel) t cp stem ext cur k =
  allocate fuel t cp stem ext (cp ++ [candidate stem ext k]) (S k).
Proof. intros H. simpl. now rewrite H. Qed.

Lemma allocate_exhausted (t : node) (cp : path) (stem ext : string)
    (cur : path) (k : nat) :
  exists_ t cur = true -> allocate 0 t cp stem ext cur k = None.
Proof. intros H. simpl. now rewrite H. Qed.

(** What the loop returns is free, and every name tried before it was
    taken. *)
Lemma allocate_sound (t : node) (cp : path) (stem ext : string) :
  forall fuel cur k p,
    allocate fuel t cp stem ext cur k = Some p ->
    exists_ t p = false /\
    (p = cur \/
     exists_ t cur = true /\
     exists j, k <= j < k + fuel /\ p = cp ++ [candidate stem ext j] /\
               forall i, k <= i < j -> exists_ t (cp ++ [candidate stem ext i]) = true).
Proof.
  induction fuel as [|fuel IH]; intros cur k p;
    destruct (exists_ t cur) eqn:Hc.
  - now rewrite allocate_exhausted.
  - rewrite allocate_free by assumption. intros [= <-]. auto.
  - rewrite allocate_taken by assumption.
    intros H. apply IH in H. destruct H as [Hfree [-> | [Hex [j [Hj [-> Hbefore]]]]]].
    + split; [exact Hfree|]. right. split; [reflexivity|].
      exists k. split; [lia|]. split; [reflexivity|]. intros i Hi; lia.
    + split; [exact Hfree|]. right. split; [reflexivity|].
      exists j. split; [lia|]. split; [reflexivity|].
      intros i Hi. destruct (Nat.eq_dec i k) as [->|Hne]; [exact Hex|].
      apply Hbefore. lia.
  - rewrite allocate_free by assumption. intros [= <-]. auto.
Qed.

(** The loop ends as soon as a free numbered name is within reach. *)
Lemma allocate_complete (t : node) (cp : path) (stem ext : string) :
  forall fuel cur k j,
    k <= j < k + fuel ->
    exists_ t (cp ++ [candidate stem ext j]) = false ->
    exists p, allocate fuel t cp stem ext cur k = Some p.
Proof.
  induction fuel as [|fuel IH]; intros cur k j Hj Hfree; [lia|].
  destruct (exists_ t cur) eqn:Hc.
  - rewrite allocate_taken by assumption.
    destruct (Nat.eq_dec j k) as [->|Hne].
    + rewrite allocate_free by assumption. eauto.
    + apply (IH _ (S k) j); [lia | exact Hfree].
  - rewrite allocate_free by assumption. eauto.
Qed.

(** More fuel than needed changes nothing. *)
Lemma allocate_more_fuel (t : node) (cp : path) (stem ext : string) :
  forall fuel cur k p,
    allocate fuel t cp stem ext cur k = Some p ->
    forall fuel', fuel <= fuel' -> allocate fuel' t cp stem ext cur k = Some p.
Proof.
  induction fuel as [|fuel IH]; intros cur k p H fuel' Hle;
    destruct (exists_ t cur) eqn:Hc.
  - now rewrite allocate_exhausted in H.
  - rewrite allocate_free in * by assumption. exact H.
  - destruct fuel' as [|fuel']; [lia|].
    rewrite allocate_taken in * by assumption. apply (IH _ _ _ H). lia.
  - rewrite allocate_free in * by assumption. exact H.
Qed.

End PathAllocator.

(** C3.  The duplicate-name loop of [organize_file] always ends, and the
    path it allocates does not exist: it is the first candidate (the
    file's own name, which is stem+extension) when that is free, and otherwise [stem_k+extension]
    for the least [k >= 1] whose name is free, every earlier candidate
    being taken.  With [a.txt] present the loop yields [a_1.txt], and
    with [a_1.txt] present too it yields [a_2.txt]. *)
Theorem C3_allocate_collision_free (t : node) (category_path : path)
    (stem ext first : string) :
  (forall name, (PyStr.stem name ++ PyStr.suffix name)%string = name)
  /\ (exists p,
     (forall fuel, allocate_fuel t category_path <= fuel ->
        allocate fuel t category_path stem ext (category_path ++ [first]) 1 = Some p)
     /\ Filesystem.exists_ t p = false
     /\ (p = category_path ++ [first]
         \/ Filesystem.exists_ t (category_path ++ [first]) = true /\
            exists k, 1 <= k /\ p = category_path ++ [candidate stem ext k] /\
              forall i, 1 <= i < k ->
                Filesystem.exists_ t (category_path ++ [candidate stem ext i]) = true))
  /\ (let t1 := Dir true [("Documents", Dir true [("a.txt", File true (Text "old"))])] in
      allocate (allocate_fuel t1 ["Documents"]) t1 ["Documents"] "a" ".txt"
               ["Documents"; "a.txt"] 1 = Some ["Documents"; "a_1.txt"])
  /\ (let t2 := Dir true [("Documents", Dir true [("a.txt", File true (Text "old"));
                                                  ("a_1.txt", File true (Text "older"))])] in
      allocate (allocate_fuel t2 ["Documents"]) t2 ["Documents"] "a" ".txt"
               ["Documents"; "a.txt"] 1 = Some ["Documents"; "a_2.txt"]).
Proof.
  split; [exact stem_suffix|].
  split; [|split; reflexivity].
  destruct (free_candidate t category_path stem ext) as [j [Hj Hfree]].
  destruct (allocate_complete t category_path stem ext
              (allocate_fuel t category_path) (category_path ++ [first]) 1 j)
    as [p Hp]; [lia | exact Hfree |].
  exists p. split; [|split].
  - intros fuel Hle. eapply allocate_more_fuel; eauto.
  - eapply allocate_sound; eauto.
  - destruct (allocate_sound _ _ _ _ _ _ _ _ Hp) as [_ [Heq | [Hex [k [Hk [Hpk Hb]]]]]].
    + now left.
    + right. split; [exact Hex|]. exists k. split; [lia|]. split; [exact Hpk | exact Hb].
Qed.

(* ================================================================== *)
(** ** Dry runs *)

Section DryRun.
Import Filesystem FilesystemFacts.

Lemma state_eta (s : state) :
  mkState (fs s) (clock s) (stdout s ++ []) (operations s) = s.
Proof. destruct s; simpl. now rewrite app_nil_r. Qed.

Lemma readonly_ret {A} (a : A) : readonly (ret a).
Proof.
  intros s. exists (Val a), []. intros s2 _. unfold ret. now rewrite state_eta.
Qed.

Lemma readonly_raise {A} (e : exn) : readonly (@raise A e).
Proof.
  intros s. exists (Exc e), []. intros s2 _. unfold raise. now rewrite state_eta.
Qed.

Lemma readonly_print (e : event) : readonly (print e).
Proof. intros s. exists (Val tt), [e]. intros s2 _. reflexivity. Qed.

Lemma readonly_fs_get {A} (f : node -> A) : readonly (fs_get f).
Proof.
  intros s. exists (Val (f (fs s))), []. intros s2 H2. unfold fs_get.
  now rewrite state_eta, H2.
Qed.

Lemma readonly_fs_read {A} (f : node -> outcome A) : readonly (fs_read f).
Proof.
  intros s. exists (f (fs s)), []. intros s2 H2. unfold fs_read.
  now rewrite state_eta, H2.
Qed.

Lemma readonly_bind {A B} (m : M A) (k : A -> M B) :
  readonly m -> (forall a, readonly (k a)) -> readonly (bind m k).
Proof.
  intros Hm Hk s. destruct (Hm s) as [r [out Hr]].
  destruct r as [a | e].
  - destruct (Hk a (mkState (fs s) (clock s) (stdout s ++ out) (operations s)))
      as [r' [out' Hr']].
    exists r', (out ++ out'). intros s2 H2. unfold bind.
    rewrite (Hr s2 H2). cbn iota beta.
    rewrite Hr' by exact H2. simpl. now rewrite app_assoc.
  - exists (Exc e), out. intros s2 H2. unfold bind. now rewrite (Hr s2 H2).
Qed.

Lemma readonly_for_each {A B} (f : B -> A -> M B) (l : list A) :
  (forall b x, readonly (f b x)) -> forall b, readonly (for_each f l b).
Proof.
  intros Hf. induction l as [|x l IH]; intros b; simpl.
  - apply readonly_ret.
  - apply readonly_bind; [apply Hf | exact IH].
Qed.

Lemma organize_file_dry_readonly (self : FileOrganizer) (file_path : path) :
  dry_run self = true -> readonly (organize_file self file_path).
Proof.
  intros Hdry. unfold organize_file. rewrite Hdry.
  apply readonly_bind; [apply readonly_ret | intros _].
  apply readonly_bind; [apply readonly_fs_get | intros [p|]].
  - apply readonly_bind; [apply readonly_print | intros _; apply readonly_ret].
  - apply readonly_raise.
Qed.

Lemma organize_directory_dry_readonly (self : FileOrganizer) :
  dry_run self = true ->
  forall depth current_dir, readonly (organize_directory depth self current_dir).
Proof.
  intros Hdry. induction depth as [|depth IH]; intros current_dir; simpl.
  - apply readonly_raise.
  - intros s.
    assert (Hloop : forall items,
      readonly (for_each (organize_item (organize_directory depth self) self current_dir)
                         items 0)).
    { intros items. apply readonly_for_each. intros b x. unfold organize_item.
      apply readonly_bind; [apply readonly_fs_get | intros isd].
      destruct isd.
      - destruct (path_eqb (parent (current_dir ++ [x])) directory && is_category self x);
          [apply readonly_ret|].
        destruct (recursive self && path_eqb (parent (current_dir ++ [x])) directory);
          [|apply readonly_ret].
        apply readonly_bind; [apply readonly_print | intros _].
        apply readonly_bind; [apply IH | intros n; apply readonly_ret].
      - destruct (should_ignore (ignore_patterns self) x); [apply readonly_ret|].
        apply readonly_bind; [now apply organize_file_dry_readonly | intros ok].
        apply readonly_ret. }
    destruct (iterdir (fs s) current_dir) as [items | e] eqn:Hit.
    + destruct (Hloop items s) as [r [out Hr]].
      exists r, out. intros s2 H2. rewrite <- H2 in Hit. rewrite Hit. now apply Hr.
    + destruct e;
        try (eexists (Exc _), []; intros s2 H2; rewrite <- H2 in Hit;
             rewrite Hit, state_eta; reflexivity).
      destruct (readonly_bind (print (PermissionDenied current_dir)) (fun _ => ret 0)
                  (readonly_print _) (fun _ => readonly_ret 0) s) as [r [out Hr]].
      exists r, out. intros s2 H2. rewrite <- H2 in Hit. rewrite Hit. now apply Hr.
Qed.

Lemma run_dry_readonly (self : FileOrganizer) :
  dry_run self = true -> readonly (run self).
Proof.
  intros Hdry. unfold run. rewrite Hdry. simpl negb.
  apply readonly_bind; [apply readonly_fs_get | intros isd].
  destruct (negb isd); [apply readonly_print|].
  apply readonly_bind; [apply readonly_print | intros _].
  apply readonly_bind; [now apply organize_directory_dry_readonly | intros n].
  apply readonly_bind; [apply readonly_ret | intros _].
  destruct (n =? 0); apply readonly_print.
Qed.

End DryRun.

(** C6.  A dry run changes nothing: after [run] with [dry_run] set, the
    tree is the one it started from (no category folder, no moved file,
    no log file), [self.operations] has no new record, and the run has
    only printed; a second dry run from there prints exactly the same
    messages, and so the same source-to-destination pairs, and again
    changes nothing. *)
Theorem C6_dry_run_changes_nothing (self : FileOrganizer)
    (Hdry : dry_run self = true) (s : state) :
  exists r out,
    let s1 := mkState (fs s) (clock s) (stdout s ++ out) (operations s) in
    run self s = (r, s1)
    /\ run self s1 = (r, mkState (fs s) (clock s) (stdout s1 ++ out) (operations s))
    /\ save_log self s1 = (Val tt, s1).
Proof.
  destruct (run_dry_readonly self Hdry s) as [r [out Hr]].
  exists r, out. cbv zeta. split; [|split].
  - now apply Hr.
  - apply (Hr (mkState (fs s) (clock s) (stdout s ++ out) (operations s))).
    reflexivity.
  - unfold save_log. now rewrite Hdry.
Qed.

Lemma C6_dry_run_changes_nothing_witness :
  dry_run (default_organizer true true) = true
  /\ exists r out,
       let s := initial_state downloads 0 in
       let s1 := mkState (fs s) (clock s) (stdout s ++ out) (operations s) in
       run (default_organizer true true) s = (r, s1)
       /\ run (default_organizer true true) s1 =
          (r, mkState (fs s) (clock s) (stdout s1 ++ out) (operations s))
       /\ save_log (default_organizer true true) s1 = (Val tt, s1).
Proof.
  split; [reflexivity|].
  exact (C6_dry_run_changes_nothing (default_organizer true true) eq_refl
           (initial_state downloads 0)).
Defined.

(* ================================================================== *)
(** ** Live moves *)

Section LiveMove.
Import Filesystem FilesystemFacts.

(** [organize_file] in live mode, once the category folder is there:
    the outcome is decided by [shutil.move] alone. *)
Lemma organize_file_live (self : FileOrganizer) (file_path : path) (s : state)
    (t1 : node) (dst : path) :
  dry_run self = false ->
  let name := basename file_path in
  let category_path := directory ++ [get_category (categories self) (PyStr.suffix name)] in
  mkdir category_path (fs s) = Val t1 ->
  allocate (allocate_fuel t1 category_path) t1 category_path
           (PyStr.stem name) (PyStr.suffix name) (category_path ++ [name]) 1 = Some dst ->
  organize_file self file_path s =
  match shutil_move file_path dst t1 with
  | Val t2 =>
      (Val true,
       mkState t2 (S (clock s)) (stdout s ++ [Moved file_path dst])
               (operations s ++ [mkOp file_path dst (clock s)]))
  | Exc e =>
      (Val false,
       mkState t1 (clock s) (stdout s ++ [ErrorMoving name e]) (operations s))
  end.
Proof.
  intros Hlive name category_path Hmk Halloc.
  unfold organize_file. rewrite Hlive.
  fold name. fold category_path.
  unfold bind at 1. unfold fs_op at 1. rewrite Hmk.
  unfold bind at 1. unfold fs_get at 1. cbn [fs set_fs].
  rewrite Halloc.
  unfold try_except, bind, fs_op, print, now, record_operation, ret.
  cbn [fs set_fs clock stdout operations].
  destruct (shutil_move file_path dst t1); reflexivity.
Qed.

(** [organize_file] in live mode when the category folder cannot be
    made: the exception of [mkdir] goes up, before any move. *)
Lemma organize_file_no_folder (self : FileOrganizer) (file_path : path) (s : state)
    (e : exn) :
  dry_run self = false ->
  mkdir (directory ++ [get_category (categories self)
                         (PyStr.suffix (basename file_path))]) (fs s) = Exc e ->
  organize_file self file_path s = (Exc e, s).
Proof.
  intros Hlive Hmk. unfold organize_file. rewrite Hlive.
  unfold bind at 1. unfold fs_op. now rewrite Hmk.
Qed.


End LiveMove.



(* ================================================================== *)
(** ** The restore loop of undo *)

Section RestoreLoop.
Import Filesystem FilesystemFacts.

(** One turn of the loop never raises and prints one message. *)
Lemma undo_one_step (c : nat) (op : operation) (s : state) :
  exists ev t',
    undo_one c op s =
    (Val (c + count_restored [ev]),
     mkState t' (clock s) (stdout s ++ [ev]) (operations s))
    /\ about op ev
    /\ (exists_ (fs s) (new_path op) = false ->
        ev = Skipped (basename (new_path op)) /\ t' = fs s)
    /\ (is_restored ev = true ->
        exists t1, mkdir_parents (parent (old_path op)) (fs s) = Val t1 /\
                   shutil_move (new_path op) (old_path op) t1 = Val t').
Proof.
  unfold undo_one, bind, fs_get, try_except, fs_op, print, ret, about.
  destruct (exists_ (fs s) (new_path op)) eqn:Hex; cbn [negb].
  - destruct (mkdir_parents (parent (old_path op)) (fs s)) as [t1|e] eqn:Hmk;
      cbn [fs set_fs clock stdout operations].
    + destruct (shutil_move (new_path op) (old_path op) t1) as [t2|e] eqn:Hmv;
        cbn [fs set_fs clock stdout operations].
      * exists (Restored (basename (new_path op)) (old_path op)), t2.
        repeat split; auto; try discriminate. intros _. eauto.
      * exists (ErrorRestoring (basename (new_path op)) e), t1.
        cbn. rewrite Nat.add_0_r. repeat split; eauto; discriminate.
    + exists (ErrorRestoring (basename (new_path op)) e), (fs s).
      cbn. rewrite Nat.add_0_r. repeat split; eauto; discriminate.
  - exists (Skipped (basename (new_path op))), (fs s).
    cbn. rewrite Nat.add_0_r. repeat split; auto; discriminate.
Qed.

Lemma count_restored_app (a b : list event) :
  count_restored (a ++ b) = count_restored a + count_restored b.
Proof. unfold count_restored. now rewrite filter_app, length_app. Qed.

(** The loop over any list of records: one message per record, in the
    order of the list, and the count of the restored ones. *)
Lemma restore_loop (l : list operation) :
  forall c s, exists out t',
    for_each undo_one l c s =
    (Val (c + count_restored out),
     mkState t' (clock s) (stdout s ++ out) (operations s))
    /\ Forall2 about l out.
Proof.
  induction l as [|op l IH]; intros c s.
  - exists [], (fs s). cbn. rewrite app_nil_r, Nat.add_0_r.
    destruct s; split; [reflexivity | constructor].
  - destruct (undo_one_step c op s) as [ev [t1 [Hstep [Hab _]]]].
    destruct (IH (c + count_restored [ev])
                 (mkState t1 (clock s) (stdout s ++ [ev]) (operations s)))
      as [out [t' [Hrest Hall]]].
    exists (ev :: out), t'. split; [|now constructor].
    cbn [for_each]. unfold bind at 1. rewrite Hstep, Hrest.
    cbn [fs clock stdout operations].
    rewrite <- app_assoc. cbn [app].
    change (ev :: out) with ([ev] ++ out).
    now rewrite count_restored_app, Nat.add_assoc.
Qed.

End RestoreLoop.


(* ================================================================== *)
(** ** The end of undo *)

Section UndoLog.
Import Filesystem FilesystemFacts.

Lemma get_entry_del_same (c : string) (es : entries) :
  get_entry c (del_entry c es) = None.
Proof.
  unfold del_entry. induction es as [|[k v] es IH]; simpl; [reflexivity|].
  destruct (String.eqb_spec k c) as [->|Hk]; simpl; [exact IH|].
  destruct (String.eqb_spec k c); [contradiction | exact IH].
Qed.

Lemma get_entry_upd_same (c : string) (g : node -> node) (es : entries) :
  get_entry c (upd_entry c g es) = option_map g (get_entry c es).
Proof.
  induction es as [|[k v] es IH]; simpl; [reflexivity|].
  destruct (String.eqb_spec k c) as [->|Hk]; simpl.
  - now rewrite String.eqb_refl.
  - destruct (String.eqb_spec k c); [contradiction | exact IH].
Qed.

(** Below the directory that [alter_dir] changes, a lookup sees the new
    entries. *)
Lemma lookup_alter_dir_below (f : entries -> entries) (d q : path) :
  forall t pm es,
    lookup t d = Some (Dir pm es) ->
    lookup (alter_dir f d t) (d ++ q) = lookup (Dir pm (f es)) q.
Proof.
  induction d as [|c d IH]; intros t pm es Hd.
  - simpl in Hd. injection Hd as ->. reflexivity.
  - destruct t as [pm0 dt | pm0 es0]; simpl in Hd; [discriminate|].
    destruct (get_entry c es0) as [t'|] eqn:Hc; [|discriminate].
    change (lookup (alter_dir f (c :: d) (Dir pm0 es0)) ((c :: d) ++ q))
      with (match get_entry c (upd_entry c (alter_dir f d) es0) with
            | Some t'' => lookup t'' (d ++ q)
            | None => None
            end).
    rewrite get_entry_upd_same, Hc. cbn [option_map].
    now apply IH.
Qed.

Lemma lookup_parent_dir (t : node) (d : path) (c : string) (n : node) :
  lookup t (d ++ [c]) = Some n ->
  exists pm es, lookup t d = Some (Dir pm es) /\ get_entry c es = Some n.
Proof.
  rewrite lookup_app. destruct (lookup t d) as [[pm dt | pm es]|]; simpl; try discriminate.
  destruct (get_entry c es) eqn:Hc; [|discriminate].
  intros [= ->]. eauto.
Qed.

(** What [unlink] deletes is gone. *)
Lemma unlink_removes (t t' : node) (d : path) (c : string) :
  unlink (d ++ [c]) t = Val t' -> exists_ t' (d ++ [c]) = false.
Proof.
  unfold unlink. destruct (lookup t (d ++ [c])) as [[[|] dt | pm es]|] eqn:Hl;
    try discriminate.
  intros [= <-]. destruct (lookup_parent_dir _ _ _ _ Hl) as [pm [es [Hd _]]].
  unfold exists_, detach. rewrite parent_child, basename_child.
  rewrite (lookup_alter_dir_below _ d [c] t pm es Hd). simpl.
  now rewrite get_entry_del_same.
Qed.

Lemma bind_val {A B} (m : M A) (k : A -> M B) (s s' : state) (a : A) :
  m s = (Val a, s') -> bind m k s = k a s'.
Proof. intros H. unfold bind. now rewrite H. Qed.

Lemma load_log_exists (t : node) (ts : nat) (ops : list operation) :
  load_log t = Val (ts, ops) -> exists_ t log_file = true.
Proof.
  unfold load_log, read_file, exists_.
  destruct (lookup t log_file) as [[pm dt | pm es]|]; try discriminate. reflexivity.
Qed.

Lemma remove_log_cases (n : nat) (s : state) :
  (exists t', unlink log_file (fs s) = Val t'
     /\ remove_log n s =
        (Val tt, mkState t' (clock s) (stdout s ++ [UndoComplete n]) (operations s))
     /\ exists_ t' log_file = false)
  \/ (exists e, unlink log_file (fs s) = Exc e
        /\ remove_log n s =
           (Val tt, mkState (fs s) (clock s) (stdout s ++ [CouldNotDeleteLog e])
                            (operations s))).
Proof.
  unfold remove_log, try_except, bind, fs_op, print.
  destruct (unlink log_file (fs s)) as [t'|e] eqn:Hu.
  - left. exists t'. repeat split.
    apply (unlink_removes (fs s) t' [] ".organizer_log.json" Hu).
  - right. exists e. split; reflexivity.
Qed.

End UndoLog.

(** C9.  When the log file holds a non-empty list of operations,
    [undo_organization] runs the restore loop, which always completes
    whatever the fate of the single restores, then the removal of the
    empty folders, and, once that has completed, deletes the log file:
    afterwards the log file does not exist.  If the deletion fails, the
    failure is printed and [undo_organization] still returns normally. *)
Theorem C9_log_deleted_after_undo (s : state) (ts : nat) (ops : list operation)
    (Hlog : load_log (fs s) = Val (ts, ops)) (Hne : ops <> []) :
  let s0 := mkState (fs s) (clock s) (stdout s ++ [Undoing (length ops) ts])
                    (operations s) in
  exists out t1,
    let n := count_restored out in
    let s1 := mkState t1 (clock s) (stdout s0 ++ out) (operations s) in
    restore_all ops s0 = (Val n, s1)
    /\ forall s2, remove_empty_folders s1 = (Val tt, s2) ->
         undo_organization s = remove_log n s2
         /\ ((exists t3,
                Filesystem.unlink log_file (fs s2) = Val t3
                /\ undo_organization s =
                   (Val tt, mkState t3 (clock s2) (stdout s2 ++ [UndoComplete n])
                                    (operations s2))
                /\ Filesystem.exists_ t3 log_file = false)
             \/ (exists e,
                   Filesystem.unlink log_file (fs s2) = Exc e
                   /\ undo_organization s =
                      (Val tt, mkState (fs s2) (clock s2)
                                       (stdout s2 ++ [CouldNotDeleteLog e])
                                       (operations s2)))).
Proof.
  intros s0.
  destruct (restore_loop (List.rev ops) 0 s0) as [out [t1 [Hrest _]]].
  exists out, t1. cbv zeta. split; [exact Hrest|].
  intros s2 Hclean.
  assert (Hundo : undo_organization s = remove_log (count_restored out) s2).
  { unfold undo_organization.
    rewrite (bind_val _ _ s s true)
      by (unfold fs_get; now rewrite (load_log_exists _ _ _ Hlog)).
    cbn [negb]. rewrite Hlog.
    destruct ops as [|op ops']; [contradiction|]. cbn [is_nil].
    rewrite (bind_val _ _ s s0 tt) by reflexivity.
    rewrite (bind_val _ _ _ _ _ Hrest).
    rewrite (bind_val _ _ _ _ _ Hclean). reflexivity. }
  split; [exact Hundo|].
  destruct (remove_log_cases (count_restored out) s2)
    as [[t3 [Hu [Hr Hgone]]] | [e [Hu Hr]]].
  - left. exists t3. rewrite Hundo. auto.
  - right. exists e. rewrite Hundo. auto.
Qed.

Lemma C9_log_deleted_after_undo_witness :
  let s := initial_state organized_downloads 5 in
  let ops := [mkOp ["a.txt"] ["Documents"; "a.txt"] 0;
              mkOp ["b.txt"] ["Documents"; "b.txt"] 1] in
  load_log (fs s) = Val (2, ops)
  /\ ops <> []
  /\ let s0 := mkState (fs s) (clock s) (stdout s ++ [Undoing (length ops) 2])
                       (operations s) in
     exists out t1,
       let n := count_restored out in
       let s1 := mkState t1 (clock s) (stdout s0 ++ out) (operations s) in
       restore_all ops s0 = (Val n, s1)
       /\ forall s2, remove_empty_folders s1 = (Val tt, s2) ->
            undo_organization s = remove_log n s2
            /\ ((exists t3,
                   Filesystem.unlink log_file (fs s2) = Val t3
                   /\ undo_organization s =
                      (Val tt, mkState t3 (clock s2) (stdout s2 ++ [UndoComplete n])
                                       (operations s2))
                   /\ Filesystem.exists_ t3 log_file = false)
                \/ (exists e,
                      Filesystem.unlink log_file (fs s2) = Exc e
                      /\ undo_organization s =
                         (Val tt, mkState (fs s2) (clock s2)
                                          (stdout s2 ++ [CouldNotDeleteLog e])
                                          (operations s2)))).
Proof.
  intros s ops.
  assert (Hne : ops <> []) by discriminate.
  split; [reflexivity|]. split; [exact Hne|].
  exact (C9_log_deleted_after_undo s 2 ops eq_refl Hne).
Defined.

(** The same undo, evaluated: the newest record is restored first, the
    record whose file is gone is skipped, the emptied folder and the log
    are removed. *)
Example undo_organized_downloads :
  undo_organization (initial_state organized_downloads 5) =
  (Val tt,
   mkState (Dir true [("b.txt", plain "y")]) 5
           [Undoing 2 2; Restored "b.txt" ["b.txt"]; Skipped "a.txt";
            RemovedEmptyFolder "Documents"; UndoComplete 1]
           []).
Proof. reflexivity. Qed.

(* ================================================================== *)
(** ** Traversal of directories *)

Section Traversal.
Import Filesystem FilesystemFacts.

Lemma child_not_root (d : path) (name : string) : d ++ [name] <> directory.
Proof. destruct d; discriminate. Qed.

Lemma path_eqb_false (p q : path) : p <> q -> path_eqb p q = false.
Proof.
  intros H. apply not_true_is_false. intros Ht. now apply path_eqb_eq in Ht.
Qed.

Lemma for_each_ext {A B} (f g : B -> A -> M B) (l : list A) :
  (forall b x s, f b x s = g b x s) ->
  forall b s, for_each f l b s = for_each g l b s.
Proof.
  intros Hfg. induction l as [|x l IH]; intros b s; cbn [for_each]; [reflexivity|].
  unfold bind. rewrite Hfg. destruct (g b x s) as [[b'|e] s']; [apply IH | reflexivity].
Qed.

(** The loop body calls [recurse] on entries of the organised directory
    only. *)
Lemma organize_item_ext (r1 r2 : path -> M nat) (self : FileOrganizer)
    (current_dir : path) (b : nat) (name : string) (s : state) :
  (current_dir = directory -> forall s', r1 [name] s' = r2 [name] s') ->
  organize_item r1 self current_dir b name s =
  organize_item r2 self current_dir b name s.
Proof.
  intros Hr. unfold organize_item, bind, fs_get. rewrite parent_child.
  destruct (is_dir (fs s) (current_dir ++ [name])); [|reflexivity].
  destruct (path_eqb current_dir directory) eqn:Hroot.
  - apply path_eqb_eq in Hroot. subst current_dir.
    destruct (is_category self name); cbn [andb]; [reflexivity|].
    destruct (recursive self); cbn [andb]; [|reflexivity].
    unfold print. cbn [app]. now rewrite (Hr eq_refl).
  - rewrite andb_false_r. cbn [andb]. reflexivity.
Qed.

(** Below the organised directory one level of calls is all there is. *)
Lemma organize_directory_below (self : FileOrganizer) (depth : nat)
    (current_dir : path) (s : state) :
  current_dir <> directory ->
  organize_directory (S depth) self current_dir s =
  organize_directory 1 self current_dir s.
Proof.
  intros Hne. cbn [organize_directory].
  destruct (iterdir (fs s) current_dir) as [items|e]; [|reflexivity].
  apply for_each_ext. intros b x s'. apply organize_item_ext.
  intros Hroot. contradiction.
Qed.

(** From the organised directory two levels of calls are all there is. *)
Lemma organize_directory_depth (self : FileOrganizer) (depth : nat) (s : state) :
  organize_directory (S (S depth)) self directory s =
  organize_directory traversal_depth self directory s.
Proof.
  unfold traversal_depth.
  change (organize_directory (S (S depth)) self directory s)
    with (match iterdir (fs s) directory with
          | Exc PermissionError => (print (PermissionDenied directory) ;;; ret 0) s
          | Exc e => (Exc e, s)
          | Val items =>
              for_each (organize_item (organize_directory (S depth) self) self directory)
                       items 0 s
          end).
  change (organize_directory 2 self directory s)
    with (match iterdir (fs s) directory with
          | Exc PermissionError => (print (PermissionDenied directory) ;;; ret 0) s
          | Exc e => (Exc e, s)
          | Val items =>
              for_each (organize_item (organize_directory 1 self) self directory)
                       items 0 s
          end).
  destruct (iterdir (fs s) directory) as [items|e]; [|reflexivity].
  apply for_each_ext. intros b x s'. apply organize_item_ext.
  intros _ s''. apply organize_directory_below. discriminate.
Qed.

Lemma organize_item_directory (recurse : path -> M nat) (self : FileOrganizer)
    (current_dir : path) (b : nat) (name : string) (s : state) :
  is_dir (fs s) (current_dir ++ [name]) = true ->
  organize_item recurse self current_dir b name s =
  if path_eqb current_dir directory then
    if is_category self name then (Val b, s)
    else if recursive self then
      (print (Entering name) ;;;
       n <- recurse (current_dir ++ [name]) ;; ret (b + n)) s
    else (Val b, s)
  else (Val b, s).
Proof.
  intros Hdir. unfold organize_item. rewrite parent_child.
  rewrite (bind_val _ _ s s true) by (unfold fs_get; now rewrite Hdir).
  destruct (path_eqb current_dir directory).
  - destruct (is_category self name); cbn [andb]; [reflexivity|].
    rewrite andb_true_r. destruct (recursive self); reflexivity.
  - rewrite andb_false_r. cbn [andb]. reflexivity.
Qed.

End Traversal.

(* ================================================================== *)
(** ** What a traversal leaves alone *)

Section DeepDirectories.
Import Filesystem FilesystemFacts.

Lemma get_entry_put_other (k c : string) (n : node) (es : entries) :
  k <> c -> get_entry k (put_entry c n es) = get_entry k es.
Proof.
  intros Hk. induction es as [|[k' v] es IH]; simpl.
  - destruct (String.eqb_spec c k); [congruence | reflexivity].
  - destruct (String.eqb_spec k' c) as [->|Hc]; simpl.
    + destruct (String.eqb_spec c k); [congruence | reflexivity].
    + now rewrite IH.
Qed.

Lemma get_entry_del_other (k c : string) (es : entries) :
  k <> c -> get_entry k (del_entry c es) = get_entry k es.
Proof.
  intros Hk. unfold del_entry. induction es as [|[k' v] es IH]; simpl; [reflexivity|].
  destruct (String.eqb_spec k' c) as [->|Hc]; simpl.
  - destruct (String.eqb_spec c k); [congruence | exact IH].
  - now rewrite IH.
Qed.

Lemma get_entry_upd_other (k c : string) (g : node -> node) (es : entries) :
  k <> c -> get_entry k (upd_entry c g es) = get_entry k es.
Proof.
  intros Hk. induction es as [|[k' v] es IH]; simpl; [reflexivity|].
  destruct (String.eqb_spec k' c) as [->|Hc]; simpl.
  - destruct (String.eqb_spec c k); [congruence | reflexivity].
  - now rewrite IH.
Qed.

Lemma is_prefix_app (p r : path) : is_prefix p (p ++ r) = true.
Proof.
  induction p as [|a p IH]; simpl; [reflexivity|].
  now rewrite String.eqb_refl, IH.
Qed.

Lemma is_prefix_iff (p q : path) :
  is_prefix p q = true <-> exists r, q = p ++ r.
Proof.
  split.
  - revert q; induction p as [|a p IH]; intros q H; simpl in H.
    + now exists q.
    + destruct q as [|b q]; [discriminate|].
      apply andb_true_iff in H. destruct H as [Hab H].
      apply String.eqb_eq in Hab. subst b.
      destruct (IH q H) as [r ->]. now exists r.
  - intros [r ->]. apply is_prefix_app.
Qed.

(** A change of the entry [c] of the directory [d] is not seen from a
    path that neither leads to [d ++ [c]] nor goes through it. *)
Lemma lookup_alter_dir_unrelated (f : entries -> entries) (c : string) :
  (forall es k, k <> c -> get_entry k (f es) = get_entry k es) ->
  forall d q t,
    is_prefix q (d ++ [c]) = false ->
    is_prefix (d ++ [c]) q = false ->
    lookup (alter_dir f d t) q = lookup t q.
Proof.
  intros Hf. induction d as [|a d IH]; intros q t Hq1 Hq2.
  - destruct t as [pm dt | pm es]; [reflexivity|].
    destruct q as [|k r]; [discriminate|].
    simpl in Hq2. rewrite andb_true_r in Hq2.
    change (lookup (alter_dir f [] (Dir pm es)) (k :: r))
      with (match get_entry k (f es) with
            | Some t' => lookup t' r
            | None => None
            end).
    rewrite Hf; [reflexivity|].
    intros ->. now rewrite String.eqb_refl in Hq2.
  - destruct t as [pm dt | pm es]; [reflexivity|].
    destruct q as [|k r]; [discriminate|].
    change (lookup (alter_dir f (a :: d) (Dir pm es)) (k :: r))
      with (match get_entry k (upd_entry a (alter_dir f d) es) with
            | Some t' => lookup t' r
            | None => None
            end).
    cbn [lookup]. destruct (String.eqb_spec k a) as [->|Hk].
    + rewrite get_entry_upd_same.
      destruct (get_entry a es) as [t'|]; cbn [option_map]; [|reflexivity].
      apply IH.
      * simpl in Hq1. now rewrite String.eqb_refl in Hq1.
      * simpl in Hq2. now rewrite String.eqb_refl in Hq2.
    + now rewrite get_entry_upd_other.
Qed.

Lemma path_split (p : path) : p <> [] -> p = parent p ++ [basename p].
Proof. intros H. unfold parent, basename. now apply app_removelast_last. Qed.

Lemma lookup_detach_unrelated (p q : path) (t : node) :
  p <> [] -> is_prefix q p = false -> is_prefix p q = false ->
  lookup (detach p t) q = lookup t q.
Proof.
  intros Hp H1 H2. unfold detach. rewrite (path_split p Hp) in H1, H2.
  apply (lookup_alter_dir_unrelated _ (basename p)); auto.
  intros es k Hk. now apply get_entry_del_other.
Qed.

Lemma lookup_attach_unrelated (p q : path) (n t : node) :
  p <> [] -> is_prefix q p = false -> is_prefix p q = false ->
  lookup (attach p n t) q = lookup t q.
Proof.
  intros Hp H1 H2. unfold attach. rewrite (path_split p Hp) in H1, H2.
  apply (lookup_alter_dir_unrelated _ (basename p)); auto.
  intros es k Hk. now apply get_entry_put_other.
Qed.

(** Nothing lies below a file, and nothing below a missing path. *)
Lemma lookup_below_file (t : node) (p r : path) (pm : bool) (d : fdata) :
  lookup t p = Some (File pm d) -> r <> [] -> lookup t (p ++ r) = None.
Proof.
  intros Hp Hr. rewrite lookup_app, Hp. destruct r; [contradiction | reflexivity].
Qed.

Lemma lookup_below_missing (t : node) (p r : path) :
  lookup t p = None -> lookup t (p ++ r) = None.
Proof. intros Hp. now rewrite lookup_app, Hp. Qed.

Lemma is_prefix_same_length (p q : path) :
  is_prefix p q = true -> length q <= length p -> p = q.
Proof.
  intros H Hl. apply is_prefix_iff in H. destruct H as [r ->].
  rewrite length_app in Hl. destruct r; [now rewrite app_nil_r | simpl in Hl; lia].
Qed.

Lemma deep_dirs_kept_refl (t : node) : deep_dirs_kept t t.
Proof. intros q pm es _ H. exact H. Qed.

Lemma deep_dirs_kept_trans (t1 t2 t3 : node) :
  deep_dirs_kept t1 t2 -> deep_dirs_kept t2 t3 -> deep_dirs_kept t1 t3.
Proof. intros H12 H23 q pm es Hq H. apply H23; auto. Qed.

(** Making a folder in the organised directory keeps the deep ones. *)
Lemma mkdir_deep_dirs (c : string) (t t1 : node) :
  mkdir [c] t = Val t1 -> deep_dirs_kept t t1.
Proof.
  unfold mkdir. destruct (lookup t [c]) as [[pm dt | pm es]|] eqn:Hc; try discriminate.
  - intros [= <-]. apply deep_dirs_kept_refl.
  - destruct (is_dir t (parent [c])); [|discriminate].
    intros [= <-] q pm es Hq Hl.
    rewrite lookup_attach_unrelated; [exact Hl | discriminate | |].
    + destruct q as [|k [|k' r]]; simpl in Hq; try lia.
      simpl. now rewrite andb_false_r.
    + apply not_true_is_false. intros Hp. apply is_prefix_iff in Hp.
      destruct Hp as [r ->].
      rewrite (lookup_below_missing t [c] r Hc) in Hl. discriminate.
Qed.

(** Moving a file to a free place, both at most two levels down, keeps
    the deep directories. *)
Lemma move_file_deep_dirs (src dst : path) (t t' : node) (pm : bool) (d : fdata) :
  shutil_move src dst t = Val t' ->
  lookup t src = Some (File pm d) ->
  exists_ t dst = false ->
  length src <= 2 -> length dst <= 2 ->
  deep_dirs_kept t t'.
Proof.
  intros Hmv Hsrc Hdst Hls Hld.
  assert (Hnone : lookup t dst = None).
  { unfold exists_ in Hdst. now destruct (lookup t dst). }
  assert (Hnd : is_dir t dst = false) by (unfold is_dir; now rewrite Hnone).
  unfold shutil_move in Hmv. rewrite Hnd in Hmv.
  unfold os_rename in Hmv. rewrite Hsrc in Hmv.
  assert (Hsne : src <> []) by (intros ->; discriminate).
  assert (Hdne : dst <> []) by (intros ->; destruct src; discriminate).
  destruct src as [|a src']; [contradiction|].
  destruct dst as [|b dst']; [contradiction|].
  destruct (path_eqb (a :: src') (b :: dst'));
    [injection Hmv as <-; apply deep_dirs_kept_refl|].
  destruct pm; [|discriminate].
  destruct (is_prefix (a :: src') (b :: dst')); [discriminate|].
  destruct (negb (is_dir t (parent (b :: dst')))); [discriminate|].
  rewrite Hnone in Hmv. injection Hmv as <-.
  intros q pm' es Hq Hl.
  assert (Hs1 : is_prefix (a :: src') q = false).
  { apply not_true_is_false. intros Hp. apply is_prefix_iff in Hp. destruct Hp as [r Hr].
    subst q. destruct r as [|x r].
    - rewrite app_nil_r in Hl. congruence.
    - rewrite (lookup_below_file t (a :: src') (x :: r) true d Hsrc) in Hl; discriminate. }
  assert (Hd1 : is_prefix (b :: dst') q = false).
  { apply not_true_is_false. intros Hp. apply is_prefix_iff in Hp. destruct Hp as [r Hr].
    subst q. rewrite (lookup_below_missing t (b :: dst') r Hnone) in Hl. discriminate. }
  assert (Hs2 : is_prefix q (a :: src') = false).
  { apply not_true_is_false. intros Hp.
    apply is_prefix_same_length in Hp; [|lia]. subst q. congruence. }
  assert (Hd2 : is_prefix q (b :: dst') = false).
  { apply not_true_is_false. intros Hp.
    apply is_prefix_same_length in Hp; [|lia]. subst q. congruence. }
  rewrite lookup_attach_unrelated by (auto; discriminate).
  rewrite lookup_detach_unrelated by (auto; discriminate).
  exact Hl.
Qed.

Lemma get_entry_put_same (c : string) (n : node) (es : entries) :
  get_entry c (put_entry c n es) = Some n.
Proof.
  induction es as [|[k v] es IH]; simpl.
  - now rewrite String.eqb_refl.
  - destruct (String.eqb_spec k c) as [->|Hk]; simpl.
    + now rewrite String.eqb_refl.
    + destruct (String.eqb_spec k c); [contradiction | exact IH].
Qed.

(** The only directory that [mkdir] can bring about is the one asked
    for. *)
Lemma mkdir_new_dir (c : string) (t t1 : node) (p : path) :
  mkdir [c] t = Val t1 -> is_dir t p = false -> is_dir t1 p = true -> p = [c].
Proof.
  unfold mkdir. destruct (lookup t [c]) as [[pm dt | pm es]|] eqn:Hc; try discriminate.
  - intros [= <-] H1 H2. congruence.
  - destruct (is_dir t (parent [c])) eqn:Hroot; [|discriminate].
    intros [= <-] H1 H2.
    destruct p as [|k r].
    + unfold is_dir in H1, Hroot. simpl in H1, Hroot. rewrite H1 in Hroot. discriminate.
    + destruct (String.eqb_spec k c) as [->|Hk].
      * destruct r as [|x r]; [reflexivity|]. exfalso.
        unfold is_dir in Hroot. simpl in Hroot.
        destruct t as [pm dt | pm es]; [discriminate|].
        unfold is_dir, attach in H2.
        change (parent [c]) with (@nil string) in H2.
        change (c :: x :: r) with ([] ++ (c :: x :: r)) in H2.
        rewrite (lookup_alter_dir_below _ [] (c :: x :: r) (Dir pm es) pm es eq_refl) in H2.
        cbn [lookup] in H2. change (basename [c]) with c in H2.
        rewrite get_entry_put_same in H2. simpl in H2. discriminate.
      * exfalso. unfold is_dir in H1, H2.
        rewrite lookup_attach_unrelated in H2; [congruence | discriminate | |].
        -- simpl. destruct (String.eqb_spec k c); [contradiction | reflexivity].
        -- simpl. destruct (String.eqb_spec c k); [congruence | reflexivity].
Qed.

Lemma allocate_length (t : node) (c stem ext first : string) (fuel : nat) (dst : path) :
  allocate fuel t [c] stem ext ([c] ++ [first]) 1 = Some dst ->
  exists_ t dst = false /\ exists x, dst = [c; x].
Proof.
  intros H. destruct (allocate_sound _ _ _ _ _ _ _ _ H) as [Hfree [-> | [_ [j [_ [-> _]]]]]].
  - split; [exact Hfree | now exists first].
  - split; [exact Hfree | eexists; reflexivity].
Qed.

(** [organize_file] on something that is not a directory, at most two
    levels down, keeps the deep directories. *)
Lemma organize_file_deep_dirs (self : FileOrganizer) (file_path : path) (s : state) :
  is_dir (fs s) file_path = false -> length file_path <= 2 ->
  deep_dirs_kept (fs s) (fs (snd (organize_file self file_path s))).
Proof.
  intros Hnd Hlen. destruct (dry_run self) eqn:Hdry.
  - destruct (organize_file_dry_readonly self file_path Hdry s) as [r [out Hr]].
    rewrite (Hr s eq_refl). apply deep_dirs_kept_refl.
  - set (c := get_category (categories self) (PyStr.suffix (basename file_path))).
    destruct (mkdir [c] (fs s)) as [t1|e] eqn:Hmk.
    + assert (Hk1 : deep_dirs_kept (fs s) t1) by (eapply mkdir_deep_dirs; eauto).
      destruct (free_candidate t1 [c] (PyStr.stem (basename file_path))
                  (PyStr.suffix (basename file_path))) as [j [Hj Hfree]].
      destruct (allocate_complete t1 [c] (PyStr.stem (basename file_path))
                  (PyStr.suffix (basename file_path)) (allocate_fuel t1 [c])
                  ([c] ++ [basename file_path]) 1 j) as [dst Hdst];
        [lia | exact Hfree |].
      rewrite (organize_file_live self file_path s t1 dst Hdry Hmk Hdst).
      destruct (allocate_length _ _ _ _ _ _ _ Hdst) as [Hfr [x ->]].
      clearbody c.
      destruct (shutil_move file_path [c; x] t1) as [t2|e] eqn:Hmv; [|exact Hk1].
      cbn [snd fs]. eapply deep_dirs_kept_trans; [exact Hk1|].
      assert (Hnd' : is_dir t1 [c; x] = false).
      { unfold is_dir. unfold exists_ in Hfr. now destruct (lookup t1 [c; x]). }
      pose proof Hmv as Hmv'.
      unfold shutil_move in Hmv'. rewrite Hnd' in Hmv'. unfold os_rename in Hmv'.
      destruct (lookup t1 file_path) as [[pm d | pm es]|] eqn:Hsrc; [| |discriminate].
      * eapply move_file_deep_dirs; eauto.
      * exfalso.
        assert (Hp : file_path = [c]).
        { apply (mkdir_new_dir c (fs s) t1); auto. unfold is_dir. now rewrite Hsrc. }
        subst file_path.
        destruct (path_eqb [c] [c; x]) eqn:He;
          [apply path_eqb_eq in He; discriminate|].
        cbn [is_prefix] in Hmv'. rewrite String.eqb_refl in Hmv'.
        cbn [andb] in Hmv'. discriminate.
    + rewrite (organize_file_no_folder self file_path s e Hdry Hmk).
      apply deep_dirs_kept_refl.
Qed.

Lemma for_each_deep_dirs {A B} (f : B -> A -> M B) (l : list A) :
  (forall b x s, deep_dirs_kept (fs s) (fs (snd (f b x s)))) ->
  forall b s, deep_dirs_kept (fs s) (fs (snd (for_each f l b s))).
Proof.
  intros Hf. induction l as [|x l IH]; intros b s; cbn [for_each].
  - apply deep_dirs_kept_refl.
  - unfold bind. pose proof (Hf b x s) as Hx.
    destruct (f b x s) as [[b'|e] s']; cbn [snd] in *; [|exact Hx].
    eapply deep_dirs_kept_trans; [exact Hx | apply IH].
Qed.

Lemma organize_item_deep_dirs (recurse : path -> M nat) (self : FileOrganizer)
    (current_dir : path) (b : nat) (name : string) (s : state) :
  length current_dir <= 1 ->
  (current_dir = directory ->
   forall s', deep_dirs_kept (fs s') (fs (snd (recurse (current_dir ++ [name]) s')))) ->
  deep_dirs_kept (fs s) (fs (snd (organize_item recurse self current_dir b name s))).
Proof.
  intros Hlen Hrec.
  destruct (is_dir (fs s) (current_dir ++ [name])) eqn:Hdir.
  - rewrite (organize_item_directory recurse self current_dir b name s Hdir).
    destruct (path_eqb current_dir directory) eqn:Hroot; [|apply deep_dirs_kept_refl].
    apply path_eqb_eq in Hroot.
    destruct (is_category self name); [apply deep_dirs_kept_refl|].
    destruct (recursive self); [|apply deep_dirs_kept_refl].
    unfold bind, print.
    pose proof (Hrec Hroot
      (mkState (fs s) (clock s) (stdout s ++ [Entering name]) (operations s))) as Hr.
    destruct (recurse (current_dir ++ [name]) _) as [[n|e] s']; exact Hr.
  - unfold organize_item.
    rewrite (bind_val _ _ s s false) by (unfold fs_get; now rewrite Hdir).
    destruct (should_ignore (ignore_patterns self) name); [apply deep_dirs_kept_refl|].
    unfold bind.
    pose proof (organize_file_deep_dirs self (current_dir ++ [name]) s Hdir) as Hf.
    rewrite length_app in Hf. simpl in Hf. specialize (Hf ltac:(lia)).
    destruct (organize_file self (current_dir ++ [name]) s) as [[ok|e] s']; exact Hf.
Qed.

Lemma organize_directory_deep_dirs (self : FileOrganizer) :
  forall depth current_dir s,
    length current_dir <= 1 ->
    deep_dirs_kept (fs s) (fs (snd (organize_directory depth self current_dir s))).
Proof.
  induction depth as [|depth IH]; intros current_dir s Hlen.
  - apply deep_dirs_kept_refl.
  - cbn [organize_directory].
    destruct (iterdir (fs s) current_dir) as [items|e].
    + apply for_each_deep_dirs. intros b x s'.
      apply organize_item_deep_dirs; [exact Hlen|].
      intros -> s''. apply IH. simpl. lia.
    + destruct e; apply deep_dirs_kept_refl.
Qed.

End DeepDirectories.

(** C2, as amended.  For a child directory [name] of the directory being
    scanned: when the scanned directory is the organised directory and
    [name] is a category name, the child is skipped; any other child of
    the organised directory is recursed into exactly when recursion is
    enabled, and the count of its files is added to the total; a
    directory found anywhere deeper is neither skipped by name nor
    recursed into, it is left as it is and adds nothing to the total.
    The calls therefore never nest deeper than two levels, and a whole
    traversal leaves every directory that lies two or more levels down
    exactly as it found it. *)
Theorem C2_directory_children (recurse : path -> M nat) (self : FileOrganizer)
    (current_dir : path) (b : nat) (name : string) (s : state)
    (Hdir : Filesystem.is_dir (fs s) (current_dir ++ [name]) = true) :
  (current_dir = directory -> is_category self name = true ->
     organize_item recurse self current_dir b name s = (Val b, s))
  /\ (current_dir = directory -> is_category self name = false ->
      recursive self = true ->
      organize_item recurse self current_dir b name s =
      (print (Entering name) ;;;
       n <- recurse (current_dir ++ [name]) ;; ret (b + n)) s)
  /\ (current_dir = directory -> is_category self name = false ->
      recursive self = false ->
      organize_item recurse self current_dir b name s = (Val b, s))
  /\ (current_dir <> directory ->
      organize_item recurse self current_dir b name s = (Val b, s))
  /\ (forall depth,
        organize_directory (S (S depth)) self directory s =
        organize_directory traversal_depth self directory s)
  /\ (forall depth,
        deep_dirs_kept (fs s) (fs (snd (organize_directory depth self directory s)))).
Proof.
  pose proof (organize_item_directory recurse self current_dir b name s Hdir) as H.
  split; [|split; [|split; [|split; [|split]]]].
  - intros -> Hcat. rewrite H, Hcat. reflexivity.
  - intros -> Hcat Hrec. rewrite H, Hcat, Hrec. reflexivity.
  - intros -> Hcat Hrec. rewrite H, Hcat, Hrec. reflexivity.
  - intros Hne. rewrite H. now rewrite (path_eqb_false _ _ Hne).
  - intros depth. apply organize_directory_depth.
  - intros depth. apply organize_directory_deep_dirs. simpl. lia.
Qed.

Lemma C2_directory_children_witness :
  let self := default_organizer true false in
  let s := initial_state nested_downloads 0 in
  Filesystem.is_dir (fs s) (["sub"] ++ ["Images"]) = true
  /\ organize_item (organize_directory 1 self) self ["sub"] 0 "Images" s = (Val 0, s)
  /\ Filesystem.is_dir (fs s) (directory ++ ["sub"]) = true
  /\ organize_item (organize_directory 1 self) self directory 0 "sub" s =
     (print (Entering "sub") ;;;
      n <- organize_directory 1 self (directory ++ ["sub"]) ;; ret (0 + n)) s.
Proof.
  intros self s. split; [reflexivity|]. split; [|split; [reflexivity|]].
  - apply (C2_directory_children (organize_directory 1 self) self ["sub"] 0 "Images" s
             eq_refl).
    discriminate.
  - apply (C2_directory_children (organize_directory 1 self) self directory 0 "sub" s
             eq_refl); reflexivity.
Defined.

(** C2, as stated, fails: with recursion enabled, the folder [Images]
    inside [sub] is not traversed.  Traversing it would process one
    file; the run from the organised directory processes the file of
    [sub] only and leaves [sub/Images/x.jpg] where it was. *)
Lemma C2_nested_folder_not_traversed :
  let self := default_organizer true false in
  let s := initial_state nested_downloads 0 in
  fst (organize_directory 1 self ["sub"; "Images"] s) = Val 1
  /\ fst (organize_directory 1 self ["sub"] s) = Val 1
  /\ (forall depth,
        exists s',
          organize_directory (S (S depth)) self directory s = (Val 1, s')
          /\ Filesystem.lookup (fs s') ["sub"; "Images"; "x.jpg"] = Some (plain "x")
          /\ ~ In (Entering "Images") (stdout s'))
  /\ ~ (exists s', organize_directory traversal_depth self directory s = (Val 2, s')).
Proof.
  intros self s. split; [reflexivity|]. split; [reflexivity|]. split.
  - intros depth. rewrite organize_directory_depth.
    eexists. split; [reflexivity|]. split; [reflexivity|].
    cbn. intros [H | [H | []]]; discriminate.
  - intros [s' H]. vm_compute in H. discriminate.
Qed.

(* ================================================================== *)
(** ** Organize, then undo *)

(** C1 fails on the program.  A file of the organised directory that is
    named like a category folder breaks the round trip.
    - Listed before a picture: the file [Images] goes to
      [Others/Images], the folder [Images] is created for [b.jpg], and
      undo moves the file back with [shutil.move] onto what is now a
      directory: it lands in [Images/Images], not at [Images], while
      undo prints that it was restored to [Images].
    - Listed after a picture: [mkdir] raises [FileExistsError], which
      [organize_file] does not catch; the run stops after the moves
      already made, writes no log, and undo finds nothing to undo. *)
Theorem C1_round_trip_broken_by_category_named_file :
  let self := default_organizer false false in
  (let s0 := initial_state clash_downloads 0 in
   let s1 := snd (run self s0) in
   let s2 := snd (undo_organization s1) in
   fst (run self s0) = Val tt
   /\ operations s1 = [mkOp ["Images"] ["Others"; "Images"] 0;
                       mkOp ["b.jpg"] ["Images"; "b.jpg"] 1]
   /\ fst (undo_organization s1) = Val tt
   /\ Filesystem.lookup (fs s0) ["Images"] = Some (plain "i")
   /\ Filesystem.lookup (fs s2) ["Images"] = Some (Dir true [("Images", plain "i")])
   /\ Filesystem.lookup (fs s2) ["Images"; "Images"] = Some (plain "i")
   /\ In (Restored "Images" ["Images"]) (stdout s2))
  /\ (let s0 := initial_state crash_downloads 0 in
      let s1 := snd (run self s0) in
      let s2 := snd (undo_organization s1) in
      fst (run self s0) = Exc FileExistsError
      /\ operations s1 = [mkOp ["c.txt"] ["Documents"; "c.txt"] 0]
      /\ Filesystem.exists_ (fs s1) log_file = false
      /\ Filesystem.lookup (fs s0) ["c.txt"] = Some (plain "c")
      /\ Filesystem.lookup (fs s2) ["c.txt"] = None
      /\ Filesystem.lookup (fs s2) ["Documents"; "c.txt"] = Some (plain "c")
      /\ stdout s2 = stdout s1 ++ [NoLogFile]).
Proof.
  vm_compute. repeat split; auto 10.
Qed.

(* ================================================================== *)
(** ** More on the ignore patterns *)

Section IgnorePatterns.
Import PyStr PyStrFacts.

Lemma pattern_test_plain (name p : string) :
  startswith p "*" = false -> endswith p "*" = false ->
  pattern_test name p = contains name p.
Proof. intros H1 H2. unfold pattern_test. now rewrite H1, H2. Qed.


Lemma should_ignore_app (p q : list string) (name : string) :
  should_ignore (p ++ q) name = should_ignore p name || should_ignore q name.
Proof. rewrite !should_ignore_existsb. apply existsb_app. Qed.

End IgnorePatterns.

(** X1.  Whatever the ignore file holds, the organizer's own files are
    ignored: every name that contains [.organizer_log.json] or
    [.organizerignore] is skipped, so neither file is ever handed to
    [organize_file]. *)
Theorem load_ignore_patterns_protects_own_files
    (lines : option (list string)) (pre post : string) :
  should_ignore (load_ignore_patterns lines)
                (pre ++ ".organizer_log.json" ++ post) = true
  /\ should_ignore (load_ignore_patterns lines)
                   (pre ++ ".organizerignore" ++ post) = true.
Proof.
  unfold load_ignore_patterns. rewrite !should_ignore_existsb.
  split; apply existsb_exists.
  - exists ".organizer_log.json". split; [now left|].
    rewrite pattern_test_plain by reflexivity.
    apply PyStrFacts.contains_iff. now exists pre, post.
  - exists ".organizerignore". split; [right; now left|].
    rewrite pattern_test_plain by reflexivity.
    apply PyStrFacts.contains_iff. now exists pre, post.
Qed.


(** X3.  A pattern with a star at both ends, such as the [*backup*] of
    the sample ignore file, never matches a name that has no star in
    it: [should_ignore] reads it as "ends with [backup*]", not as
    "contains [backup]". *)
Theorem should_ignore_both_stars_never_plain_name (body name : string)
    (Hplain : PyStr.contains name "*" = false) :
  should_ignore [("*" ++ body ++ "*")%string] name = false.
Proof.
  rewrite should_ignore_existsb. cbn [existsb]. rewrite orb_false_r.
  unfold pattern_test.
  rewrite (proj2 (starts_with_star ("*" ++ body ++ "*"))
             (ex_intro _ (body ++ "*")%string eq_refl)).
  apply not_true_is_false. intros H.
  apply PyStrFacts.endswith_iff in H. destruct H as [pre Hname].
  simpl PyStr.drop_first in Hname.
  assert (Hc : PyStr.contains name "*" = true).
  { apply PyStrFacts.contains_iff. exists (pre ++ body)%string, "".
    rewrite Hname. now rewrite PyStrFacts.append_assoc. }
  congruence.
Qed.

Lemma should_ignore_both_stars_never_plain_name_witness :
  PyStr.contains "report_backup.txt" "*" = false
  /\ should_ignore ["*backup*"] "report_backup.txt" = false
  /\ should_ignore (load_ignore_patterns (Some sample_ignore)) "report_backup.txt" = false.
Proof.
  split; [reflexivity|]. split.
  - exact (should_ignore_both_stars_never_plain_name "backup" "report_backup.txt" eq_refl).
  - reflexivity.
Defined.

Lemma get_category_range (cm : category_map) (ext : string) :
  get_category cm ext = "Others" \/ In (get_category cm ext) (map fst cm).
Proof.
  induction cm as [|[c es] cm IH]; simpl; [now left|].
  destruct (str_in_list (PyStr.lower ext) es).
  - right. now left.
  - destruct IH as [H | H]; [now left | right; now right].
Qed.

(** X4.  [get_category] only ever names a folder of the category map or
    ["Others"]: a file is never sent anywhere else. *)
Theorem get_category_is_key_or_others (cm : category_map) (ext : string) :
  get_category cm ext = "Others" \/ In (get_category cm ext) (map fst cm).
Proof. apply get_category_range. Qed.

(* ================================================================== *)
(** ** What a move does to the tree *)

Section MoveEffect.
Import Filesystem FilesystemFacts.

(** A change of the entry [c] of the directory [d] leaves every path
    that does not go through that entry a directory if it was one. *)
Lemma is_dir_alter_dir (f : entries -> entries) (c : string) :
  (forall es k, k <> c -> get_entry k (f es) = get_entry k es) ->
  forall d q t,
    is_prefix (d ++ [c]) q = false ->
    is_dir (alter_dir f d t) q = is_dir t q.
Proof.
  intros Hf. induction d as [|a d IH]; intros q t Hq.
  - destruct t as [pm dt | pm es]; [reflexivity|].
    destruct q as [|k r]; [reflexivity|].
    simpl in Hq. rewrite andb_true_r in Hq.
    unfold is_dir.
    change (lookup (alter_dir f [] (Dir pm es)) (k :: r))
      with (match get_entry k (f es) with
            | Some t' => lookup t' r
            | None => None
            end).
    rewrite Hf; [reflexivity|].
    intros ->. now rewrite String.eqb_refl in Hq.
  - destruct t as [pm dt | pm es]; [reflexivity|].
    destruct q as [|k r]; [reflexivity|].
    unfold is_dir.
    change (lookup (alter_dir f (a :: d) (Dir pm es)) (k :: r))
      with (match get_entry k (upd_entry a (alter_dir f d) es) with
            | Some t' => lookup t' r
            | None => None
            end).
    cbn [lookup]. destruct (String.eqb_spec k a) as [->|Hk].
    + rewrite get_entry_upd_same.
      destruct (get_entry a es) as [t'|]; cbn [option_map]; [|reflexivity].
      apply IH. simpl in Hq. now rewrite String.eqb_refl in Hq.
    + now rewrite get_entry_upd_other.
Qed.

Lemma is_dir_detach (p q : path) (t : node) :
  p <> [] -> is_prefix p q = false -> is_dir (detach p t) q = is_dir t q.
Proof.
  intros Hp H. unfold detach. rewrite (path_split p Hp) in H.
  apply (is_dir_alter_dir _ (basename p)); auto.
  intros es k Hk. now apply get_entry_del_other.
Qed.

(** What [attach] puts at a path is found there. *)
Lemma lookup_attach_same (p : path) (n t : node) :
  p <> [] -> is_dir t (parent p) = true -> lookup (attach p n t) p = Some n.
Proof.
  intros Hp Hd. unfold is_dir in Hd.
  destruct (lookup t (parent p)) as [[pm dt | pm es]|] eqn:Hl; try discriminate.
  unfold attach. rewrite (path_split p Hp) at 3.
  rewrite (lookup_alter_dir_below _ (parent p) [basename p] t pm es Hl).
  cbn [lookup]. now rewrite get_entry_put_same.
Qed.

(** What [detach] takes away is gone. *)
Lemma lookup_detach_same (p : path) (n t : node) :
  p <> [] -> lookup t p = Some n -> lookup (detach p t) p = None.
Proof.
  intros Hp Hl. rewrite (path_split p Hp) in Hl.
  destruct (lookup_parent_dir _ _ _ _ Hl) as [pm [es [Hd _]]].
  unfold detach. rewrite (path_split p Hp) at 3.
  rewrite (lookup_alter_dir_below _ (parent p) [basename p] t pm es Hd).
  cbn [lookup]. now rewrite get_entry_del_same.
Qed.

Lemma lookup_below_file_dir (t : node) (q r : path) (pm : bool) (d : fdata) :
  lookup t q = Some (File pm d) -> is_dir t (q ++ r) = false.
Proof.
  intros Hq. unfold is_dir. rewrite lookup_app, Hq. now destruct r.
Qed.

Lemma mkdir_is_dir (p : path) (t t1 : node) :
  p <> [] -> mkdir p t = Val t1 -> is_dir t1 p = true.
Proof.
  intros Hp. unfold mkdir.
  destruct (lookup t p) as [[pm dt | pm es]|] eqn:Hl; try discriminate.
  - intros [= <-]. unfold is_dir. now rewrite Hl.
  - destruct (is_dir t (parent p)) eqn:Hd; [|discriminate].
    intros [= <-]. unfold is_dir. now rewrite lookup_attach_same.
Qed.

(** Making a folder in the organised directory keeps every file. *)
Lemma mkdir_files_kept (c : string) (t t1 : node) :
  mkdir [c] t = Val t1 -> files_kept t t1.
Proof.
  unfold mkdir. destruct (lookup t [c]) as [[pm dt | pm es]|] eqn:Hc; try discriminate.
  - intros [= <-] q pm' d H. exact H.
  - destruct (is_dir t (parent [c])) eqn:Hroot; [|discriminate].
    intros [= <-] q pm d Hl.
    rewrite lookup_attach_unrelated; [exact Hl | discriminate | |].
    + destruct q as [|k [|k' r]].
      * unfold is_dir in Hroot. simpl in Hroot, Hl. injection Hl as ->. discriminate.
      * simpl. rewrite andb_true_r. apply String.eqb_neq. intros ->. congruence.
      * simpl. now rewrite andb_false_r.
    + apply not_true_is_false. intros Hp. apply is_prefix_iff in Hp.
      destruct Hp as [r ->].
      rewrite (lookup_below_missing t [c] r Hc) in Hl. discriminate.
Qed.

(** The move of a regular file to a free place, spelled out. *)
Lemma shutil_move_file (src dst : path) (t t' : node) (pm : bool) (d : fdata) :
  shutil_move src dst t = Val t' ->
  lookup t src = Some (File pm d) ->
  exists_ t dst = false ->
  pm = true /\ src <> [] /\ dst <> [] /\ is_dir t (parent dst) = true
  /\ is_prefix src dst = false
  /\ t' = attach dst (File pm d) (detach src t).
Proof.
  intros Hmv Hsrc Hdst.
  assert (Hnone : lookup t dst = None).
  { unfold exists_ in Hdst. now destruct (lookup t dst). }
  assert (Hnd : is_dir t dst = false) by (unfold is_dir; now rewrite Hnone).
  unfold shutil_move in Hmv. rewrite Hnd in Hmv.
  unfold os_rename in Hmv. rewrite Hsrc in Hmv.
  destruct src as [|a src']; [discriminate|].
  destruct dst as [|b dst']; [discriminate|].
  destruct (path_eqb (a :: src') (b :: dst')) eqn:Heq.
  { apply path_eqb_eq in Heq. congruence. }
  destruct pm; [|discriminate].
  destruct (is_prefix (a :: src') (b :: dst')); [discriminate|].
  destruct (is_dir t (parent (b :: dst'))); [|discriminate].
  rewrite Hnone in Hmv. injection Hmv as <-.
  repeat split; discriminate.
Qed.

(** Moving a regular file to a free place keeps every other file. *)
Lemma move_files_kept (src dst : path) (t t' : node) (pm : bool) (d : fdata) :
  shutil_move src dst t = Val t' ->
  lookup t src = Some (File pm d) ->
  exists_ t dst = false ->
  files_kept_except src t t'.
Proof.
  intros Hmv Hsrc Hdst.
  assert (Hnone : lookup t dst = None).
  { unfold exists_ in Hdst. now destruct (lookup t dst). }
  destruct (shutil_move_file _ _ _ _ _ _ Hmv Hsrc Hdst)
    as (_ & Hsne & Hdne & Hpar & _ & ->).
  intros q pm' d' Hq Hl.
  assert (Hs1 : is_prefix src q = false).
  { apply not_true_is_false. intros Hp. apply is_prefix_iff in Hp. destruct Hp as [r Hr].
    subst q. destruct r as [|x r].
    - now rewrite app_nil_r in Hq.
    - rewrite (lookup_below_file t src (x :: r) pm d Hsrc) in Hl; discriminate. }
  assert (Hs2 : is_prefix q src = false).
  { apply not_true_is_false. intros Hp. apply is_prefix_iff in Hp. destruct Hp as [r Hr].
    destruct r as [|x r].
    - rewrite app_nil_r in Hr. congruence.
    - rewrite Hr in Hsrc.
      rewrite (lookup_below_file t q (x :: r) pm' d' Hl) in Hsrc; discriminate. }
  assert (Hd1 : is_prefix dst q = false).
  { apply not_true_is_false. intros Hp. apply is_prefix_iff in Hp. destruct Hp as [r Hr].
    subst q. rewrite (lookup_below_missing t dst r Hnone) in Hl. discriminate. }
  assert (Hd2 : is_prefix q dst = false).
  { apply not_true_is_false. intros Hp. apply is_prefix_iff in Hp. destruct Hp as [r Hr].
    destruct r as [|x r] using rev_ind.
    - rewrite app_nil_r in Hr. congruence.
    - rewrite Hr in Hpar. rewrite app_assoc in Hpar. rewrite parent_child in Hpar.
      rewrite (lookup_below_file_dir t q r pm' d' Hl) in Hpar. discriminate. }
  rewrite lookup_attach_unrelated by auto.
  rewrite lookup_detach_unrelated by auto.
  exact Hl.
Qed.

(** After the move the file is at its destination and no longer at its
    source. *)
Lemma move_file_lands (src dst : path) (t t' : node) (pm : bool) (d : fdata) :
  shutil_move src dst t = Val t' ->
  lookup t src = Some (File pm d) ->
  exists_ t dst = false ->
  lookup t' dst = Some (File pm d) /\ lookup t' src = None.
Proof.
  intros Hmv Hsrc Hdst.
  assert (Hnone : lookup t dst = None).
  { unfold exists_ in Hdst. now destruct (lookup t dst). }
  destruct (shutil_move_file _ _ _ _ _ _ Hmv Hsrc Hdst)
    as (_ & Hsne & Hdne & Hpar & Hpre & ->).
  split.
  - apply lookup_attach_same; [exact Hdne|].
    rewrite is_dir_detach; [exact Hpar | exact Hsne |].
    apply not_true_is_false. intros Hp. apply is_prefix_iff in Hp. destruct Hp as [r Hr].
    destruct r as [|x r].
    + rewrite app_nil_r in Hr. rewrite <- Hr in Hsrc. unfold is_dir in Hpar.
      now rewrite Hsrc in Hpar.
    + rewrite Hr in Hpar. rewrite (lookup_below_file_dir t src (x :: r) pm d Hsrc) in Hpar.
      discriminate.
  - rewrite lookup_attach_unrelated; [now apply (lookup_detach_same src (File pm d)) | exact Hdne | exact Hpre |].
    apply not_true_is_false. intros Hp. apply is_prefix_iff in Hp. destruct Hp as [r Hr].
    rewrite Hr in Hsrc. rewrite (lookup_below_missing t dst r Hnone) in Hsrc. discriminate.
Qed.

End MoveEffect.

(* ================================================================== *)
(** ** What organize_file does to the tree *)

Section OrganizeFileEffect.
Import Filesystem FilesystemFacts.

(** A regular file found after [mkdir] was there before. *)
Lemma mkdir_file_inv (c : string) (t t1 : node) (q : path) (pm : bool) (d : fdata) :
  mkdir [c] t = Val t1 ->
  lookup t1 q = Some (File pm d) -> lookup t q = Some (File pm d).
Proof.
  intros Hmk Hl.
  destruct (lookup t q) as [[pm' d' | pm' es']|] eqn:Hq.
  - now rewrite (mkdir_files_kept c t t1 Hmk q pm' d' Hq) in Hl.
  - exfalso. pose proof Hmk as Hmk'. unfold mkdir in Hmk'.
    destruct (lookup t [c]) as [[pm0 dt | pm0 es0]|] eqn:Hc; try discriminate.
    + injection Hmk' as <-. congruence.
    + destruct (is_dir t (parent [c])); [|discriminate]. injection Hmk' as <-.
      destruct q as [|k r].
      * simpl in Hq, Hl. injection Hq as ->. discriminate.
      * assert (Hk : k <> c).
        { intros ->. destruct r as [|x r]; [congruence|].
          change (c :: x :: r) with ([c] ++ x :: r) in Hq.
          rewrite (lookup_below_missing t [c] (x :: r) Hc) in Hq. discriminate. }
        rewrite lookup_attach_unrelated in Hl; [congruence | discriminate | |].
        -- simpl. destruct (String.eqb_spec k c); [contradiction | reflexivity].
        -- simpl. destruct (String.eqb_spec c k); [congruence | reflexivity].
  - exfalso.
    assert (Hnd : is_dir t1 q = false) by (unfold is_dir; now rewrite Hl).
    pose proof Hmk as Hmk'. unfold mkdir in Hmk'.
    destruct (lookup t [c]) as [[pm0 dt | pm0 es0]|] eqn:Hc; try discriminate.
    + injection Hmk' as <-. congruence.
    + destruct (is_dir t (parent [c])) eqn:Hroot; [|discriminate].
      injection Hmk' as <-.
      destruct q as [|k r]; [discriminate|].
      destruct (String.eqb_spec k c) as [->|Hk].
      * pose proof (mkdir_is_dir [c] t _ ltac:(discriminate) Hmk) as Hd.
        destruct r as [|x r].
        -- unfold is_dir in Hd. now rewrite Hl in Hd.
        -- unfold is_dir in Hroot. simpl in Hroot.
           destruct t as [pm1 dt | pm1 es1]; [discriminate|].
           unfold attach in Hl. change (parent [c]) with (@nil string) in Hl.
           change (c :: x :: r) with ([] ++ (c :: x :: r)) in Hl.
           rewrite (lookup_alter_dir_below _ [] (c :: x :: r) (Dir pm1 es1) pm1 es1 eq_refl)
             in Hl.
           cbn [lookup] in Hl. change (basename [c]) with c in Hl.
           rewrite get_entry_put_same in Hl. simpl in Hl. discriminate.
      * rewrite lookup_attach_unrelated in Hl; [congruence | discriminate | |].
        -- simpl. destruct (String.eqb_spec k c); [contradiction | reflexivity].
        -- simpl. destruct (String.eqb_spec c k); [congruence | reflexivity].
Qed.

(** A movable regular file always moves to a free place whose folder
    exists. *)
Lemma shutil_move_file_ok (src dst : path) (t : node) (d : fdata) :
  lookup t src = Some (File true d) ->
  exists_ t dst = false ->
  dst <> [] -> is_dir t (parent dst) = true ->
  shutil_move src dst t = Val (attach dst (File true d) (detach src t)).
Proof.
  intros Hsrc Hdst Hdne Hpar.
  assert (Hnone : lookup t dst = None).
  { unfold exists_ in Hdst. now destruct (lookup t dst). }
  assert (Hnd : is_dir t dst = false) by (unfold is_dir; now rewrite Hnone).
  unfold shutil_move. rewrite Hnd. unfold os_rename. rewrite Hsrc.
  destruct src as [|a src'].
  { exfalso. simpl in Hsrc. injection Hsrc as ->.
    unfold is_dir in Hpar. destruct (parent dst); discriminate. }
  destruct dst as [|b dst']; [contradiction|].
  destruct (path_eqb (a :: src') (b :: dst')) eqn:Heq.
  { apply path_eqb_eq in Heq. congruence. }
  destruct (is_prefix (a :: src') (b :: dst')) eqn:Hpre.
  { exfalso. apply is_prefix_iff in Hpre. destruct Hpre as [r Hr].
    destruct r as [|x r] using rev_ind.
    - rewrite app_nil_r in Hr. rewrite Hr in Hnone. congruence.
    - rewrite Hr in Hpar. rewrite app_assoc, parent_child in Hpar.
      now rewrite (lookup_below_file_dir t (a :: src') r true d Hsrc) in Hpar. }
  rewrite Hpar. cbn [negb]. now rewrite Hnone.
Qed.

(** The whole effect of [organize_file] on something that is not a
    directory: either nothing moved, every file is where it was and
    [self.operations] has not changed; or the file moved into its
    category folder, intact, one record says so, and every other file is
    where it was. *)
Lemma organize_file_effect (self : FileOrganizer) (file_path : path) (s : state) :
  is_dir (fs s) file_path = false ->
  let r := organize_file self file_path s in
  let c := get_category (categories self) (PyStr.suffix (basename file_path)) in
  (operations (snd r) = operations s
   /\ files_kept (fs s) (fs (snd r))
   /\ (dry_run self = false -> fst r <> Val true))
  \/ (dry_run self = false /\ fst r = Val true
      /\ exists x d,
           lookup (fs s) file_path = Some (File true d)
           /\ operations (snd r) = operations s ++ [mkOp file_path [c; x] (clock s)]
           /\ files_kept_except file_path (fs s) (fs (snd r))
           /\ lookup (fs (snd r)) [c; x] = Some (File true d)
           /\ lookup (fs (snd r)) file_path = None).
Proof.
  intros Hnd r c. subst r. destruct (dry_run self) eqn:Hdry.
  - left. destruct (organize_file_dry_readonly self file_path Hdry s) as [r [out Hr]].
    rewrite (Hr s eq_refl). cbn [snd fs operations].
    split; [reflexivity|]. split; [intros q pm d H; exact H | discriminate].
  - destruct (mkdir [c] (fs s)) as [t1|e] eqn:Hmk.
    + destruct (free_candidate t1 [c] (PyStr.stem (basename file_path))
                  (PyStr.suffix (basename file_path))) as [j [Hj Hfree]].
      destruct (allocate_complete t1 [c] (PyStr.stem (basename file_path))
                  (PyStr.suffix (basename file_path)) (allocate_fuel t1 [c])
                  ([c] ++ [basename file_path]) 1 j) as [dst Hdst];
        [lia | exact Hfree |].
      rewrite (organize_file_live self file_path s t1 dst Hdry Hmk Hdst).
      destruct (allocate_length _ _ _ _ _ _ _ Hdst) as [Hfr [x ->]].
      destruct (shutil_move file_path [c; x] t1) as [t2|e] eqn:Hmv.
      * cbn [fst snd fs operations].
        assert (Hnd' : is_dir t1 [c; x] = false).
        { unfold is_dir. unfold exists_ in Hfr. now destruct (lookup t1 [c; x]). }
        destruct (lookup t1 file_path) as [[pm d | pm es]|] eqn:Hsrc.
        -- right. split; [reflexivity|]. split; [reflexivity|].
           destruct (shutil_move_file _ _ _ _ _ _ Hmv Hsrc Hfr) as (-> & _).
           exists x, d.
           pose proof (mkdir_file_inv c (fs s) t1 file_path true d Hmk Hsrc) as Hs0.
           destruct (move_file_lands _ _ _ _ _ _ Hmv Hsrc Hfr) as [Hl1 Hl2].
           repeat split; auto.
           intros q pm' d' Hq Hl.
           apply (move_files_kept _ _ _ _ _ _ Hmv Hsrc Hfr q pm' d' Hq).
           now apply (mkdir_files_kept c (fs s) t1 Hmk).
        -- exfalso.
           assert (Hp : file_path = [c]).
           { apply (mkdir_new_dir c (fs s) t1); auto. unfold is_dir. now rewrite Hsrc. }
           unfold shutil_move in Hmv. rewrite Hnd' in Hmv. unfold os_rename in Hmv.
           rewrite Hsrc in Hmv. clearbody c. subst file_path.
           destruct (path_eqb [c] [c; x]) eqn:He;
             [apply path_eqb_eq in He; discriminate|].
           cbn [is_prefix] in Hmv. rewrite String.eqb_refl in Hmv.
           cbn [andb] in Hmv. discriminate.
        -- exfalso. unfold shutil_move in Hmv. rewrite Hnd' in Hmv.
           unfold os_rename in Hmv. now rewrite Hsrc in Hmv.
      * left. cbn [fst snd fs operations].
        split; [reflexivity|]. split; [now apply (mkdir_files_kept c) | discriminate].
    + left. rewrite (organize_file_no_folder self file_path s e Hdry Hmk).
      cbn [fst snd]. split; [reflexivity|].
      split; [intros q pm d H; exact H | discriminate].
Qed.

End OrganizeFileEffect.

(** X5.  In live mode a movable regular file whose category folder can
    be made is always moved: [organize_file] returns [True], the file
    is then found under a free name directly inside its category
    folder, with its content unchanged, it is no longer at its old
    path, and one record with the two paths is appended. *)
Theorem organize_file_moves_file_intact (self : FileOrganizer) (file_path : path)
    (s : state) (d : fdata) (t1 : node)
    (Hlive : dry_run self = false)
    (Hfile : Filesystem.lookup (fs s) file_path = Some (File true d))
    (Hmk : Filesystem.mkdir
             [get_category (categories self)
                (PyStr.suffix (Filesystem.basename file_path))] (fs s) = Val t1) :
  let c := get_category (categories self)
             (PyStr.suffix (Filesystem.basename file_path)) in
  exists x s',
    organize_file self file_path s = (Val true, s')
    /\ Filesystem.exists_ t1 [c; x] = false
    /\ Filesystem.lookup (fs s') [c; x] = Some (File true d)
    /\ Filesystem.lookup (fs s') file_path = None
    /\ operations s' = operations s ++ [mkOp file_path [c; x] (clock s)].
Proof.
  intros c.
  destruct (free_candidate t1 [c] (PyStr.stem (Filesystem.basename file_path))
              (PyStr.suffix (Filesystem.basename file_path))) as [j [Hj Hfree]].
  destruct (allocate_complete t1 [c] (PyStr.stem (Filesystem.basename file_path))
              (PyStr.suffix (Filesystem.basename file_path)) (allocate_fuel t1 [c])
              ([c] ++ [Filesystem.basename file_path]) 1 j) as [dst Hdst];
    [lia | exact Hfree |].
  pose proof (organize_file_live self file_path s t1 dst Hlive Hmk Hdst) as Hof.
  destruct (allocate_length _ _ _ _ _ _ _ Hdst) as [Hfr [x ->]].
  pose proof (mkdir_files_kept c (fs s) t1 Hmk file_path true d Hfile) as Hsrc.
  assert (Hmv : Filesystem.shutil_move file_path [c; x] t1 =
                Val (Filesystem.attach [c; x] (File true d)
                       (Filesystem.detach file_path t1))).
  { apply shutil_move_file_ok; auto; [discriminate|].
    apply (mkdir_is_dir [c] (fs s)); [discriminate | exact Hmk]. }
  rewrite Hmv in Hof.
  destruct (move_file_lands _ _ _ _ _ _ Hmv Hsrc Hfr) as [Hl1 Hl2].
  exists x. eexists. split; [exact Hof|]. cbn [fs operations]. auto.
Qed.

Lemma organize_file_moves_file_intact_witness :
  let self := default_organizer false false in
  let s := initial_state downloads 0 in
  dry_run self = false
  /\ Filesystem.lookup (fs s) ["notes.txt"] = Some (File true (Text "n"))
  /\ Filesystem.mkdir ["Documents"] (fs s) =
     Val (Dir true [("photo.jpg", plain "p"); ("notes.txt", plain "n");
                    ("archive.zip", plain "a"); ("Documents", Dir true [])])
  /\ exists x s',
       organize_file self ["notes.txt"] s = (Val true, s')
       /\ Filesystem.lookup (fs s') ["Documents"; x] = Some (File true (Text "n"))
       /\ Filesystem.lookup (fs s') ["notes.txt"] = None.
Proof.
  intros self s. split; [reflexivity|]. split; [reflexivity|]. split; [reflexivity|].
  destruct (organize_file_moves_file_intact self ["notes.txt"] s (Text "n") _
              eq_refl eq_refl eq_refl) as [x [s' [H1 [_ [H2 [H3 _]]]]]].
  exists x, s'. auto.
Defined.

(** X6.  [organize_file], called on anything that is not a directory,
    never overwrites, moves or deletes another file: whether it
    succeeds, fails or raises, in live mode or in a dry run, every
    other regular file is afterwards at the same path with the same
    content. *)
Theorem organize_file_keeps_other_files (self : FileOrganizer) (file_path : path)
    (s : state)
    (Hnd : Filesystem.is_dir (fs s) file_path = false) :
  files_kept_except file_path (fs s) (fs (snd (organize_file self file_path s))).
Proof.
  destruct (organize_file_effect self file_path s Hnd)
    as [(_ & Hk & _) | (_ & _ & x & d & _ & _ & Hk & _)].
  - intros q pm d _ H. now apply Hk.
  - exact Hk.
Qed.

Lemma organize_file_keeps_other_files_witness :
  let self := default_organizer false false in
  let s := initial_state downloads 0 in
  Filesystem.is_dir (fs s) ["notes.txt"] = false
  /\ files_kept_except ["notes.txt"] (fs s)
       (fs (snd (organize_file self ["notes.txt"] s))).
Proof.
  intros self s. split; [reflexivity|].
  exact (organize_file_keeps_other_files self ["notes.txt"] s eq_refl).
Defined.

(* ================================================================== *)
(** ** What a traversal does to the files and to the log *)

Section TraversalEffect.
Import Filesystem FilesystemFacts.

Lemma tracked_same (s s' : state) :
  fs s' = fs s -> operations s' = operations s -> tracked s s'.
Proof.
  intros Hf Ho. exists []. rewrite app_nil_r. split; [exact Ho|].
  intros q pm d H. left. now rewrite Hf.
Qed.

Lemma tracked_trans (s1 s2 s3 : state) :
  tracked s1 s2 -> tracked s2 s3 -> tracked s1 s3.
Proof.
  intros [n1 [Ho1 Hf1]] [n2 [Ho2 Hf2]]. exists (n1 ++ n2). split.
  - now rewrite Ho2, Ho1, app_assoc.
  - intros q pm d H. destruct (Hf1 q pm d H) as [Hk | [op [Hin Hop]]].
    + destruct (Hf2 q pm d Hk) as [Hk2 | [op [Hin Hop]]]; [now left|].
      right. exists op. split; [apply in_or_app; now right | exact Hop].
    + right. exists op. split; [apply in_or_app; now left | exact Hop].
Qed.

Lemma for_each_rel {A B} (R : state -> state -> Prop) (f : B -> A -> M B) (l : list A) :
  (forall s, R s s) ->
  (forall s1 s2 s3, R s1 s2 -> R s2 s3 -> R s1 s3) ->
  (forall b x s, R s (snd (f b x s))) ->
  forall b s, R s (snd (for_each f l b s)).
Proof.
  intros Hrefl Htrans Hf. induction l as [|x l IH]; intros b s; cbn [for_each].
  - apply Hrefl.
  - unfold bind. pose proof (Hf b x s) as Hx.
    destruct (f b x s) as [[b'|e] s']; cbn [snd] in *; [|exact Hx].
    eapply Htrans; [exact Hx | apply IH].
Qed.

Lemma organize_file_tracked (self : FileOrganizer) (file_path : path) (s : state) :
  is_dir (fs s) file_path = false ->
  tracked s (snd (organize_file self file_path s)).
Proof.
  intros Hnd.
  destruct (organize_file_effect self file_path s Hnd)
    as [(Ho & Hk & _) | (_ & _ & x & d & Hsrc & Ho & Hk & _)].
  - exists []. rewrite app_nil_r. split; [exact Ho|].
    intros q pm d H. left. now apply Hk.
  - eexists. split; [exact Ho|].
    intros q pm d' H. destruct (list_eq_dec string_dec q file_path) as [->|Hq].
    + right. eexists. split; [now left | reflexivity].
    + left. now apply Hk.
Qed.

Lemma organize_item_tracked (recurse : path -> M nat) (self : FileOrganizer)
    (current_dir : path) (b : nat) (name : string) (s : state) :
  (forall s', tracked s' (snd (recurse (current_dir ++ [name]) s'))) ->
  tracked s (snd (organize_item recurse self current_dir b name s)).
Proof.
  intros Hrec.
  destruct (is_dir (fs s) (current_dir ++ [name])) eqn:Hdir.
  - rewrite (organize_item_directory recurse self current_dir b name s Hdir).
    destruct (path_eqb current_dir directory); [|now apply tracked_same].
    destruct (is_category self name); [now apply tracked_same|].
    destruct (recursive self); [|now apply tracked_same].
    unfold bind, print.
    pose proof (Hrec (mkState (fs s) (clock s) (stdout s ++ [Entering name])
                              (operations s))) as Hr.
    eapply tracked_trans; [apply (tracked_same s); reflexivity|].
    destruct (recurse (current_dir ++ [name]) _) as [[n|e] s']; exact Hr.
  - unfold organize_item.
    rewrite (bind_val _ _ s s false) by (unfold fs_get; now rewrite Hdir).
    destruct (should_ignore (ignore_patterns self) name); [now apply tracked_same|].
    unfold bind.
    pose proof (organize_file_tracked self (current_dir ++ [name]) s Hdir) as Hf.
    destruct (organize_file self (current_dir ++ [name]) s) as [[ok|e] s']; exact Hf.
Qed.

Lemma organize_directory_tracked (self : FileOrganizer) :
  forall depth current_dir s,
    tracked s (snd (organize_directory depth self current_dir s)).
Proof.
  induction depth as [|depth IH]; intros current_dir s.
  - now apply tracked_same.
  - cbn [organize_directory].
    destruct (iterdir (fs s) current_dir) as [items|e].
    + apply for_each_rel.
      * intros s0. now apply tracked_same.
      * apply tracked_trans.
      * intros b x s'. apply organize_item_tracked. intros s''. apply IH.
    + destruct e; now apply tracked_same.
Qed.

(** In live mode [organize_file] answers [True] exactly when it has
    appended one record. *)
Lemma organize_file_count (self : FileOrganizer) (file_path : path) (s s' : state)
    (ok : bool) :
  dry_run self = false ->
  organize_file self file_path s = (Val ok, s') ->
  length (operations s') = length (operations s) + (if ok then 1 else 0).
Proof.
  intros Hlive H.
  set (c := get_category (categories self) (PyStr.suffix (basename file_path))).
  destruct (mkdir [c] (fs s)) as [t1|e] eqn:Hmk.
  - destruct (free_candidate t1 [c] (PyStr.stem (basename file_path))
                (PyStr.suffix (basename file_path))) as [j [Hj Hfree]].
    destruct (allocate_complete t1 [c] (PyStr.stem (basename file_path))
                (PyStr.suffix (basename file_path)) (allocate_fuel t1 [c])
                ([c] ++ [basename file_path]) 1 j) as [dst Hdst];
      [lia | exact Hfree |].
    rewrite (organize_file_live self file_path s t1 dst Hlive Hmk Hdst) in H.
    destruct (shutil_move file_path dst t1); injection H as <- <-; cbn [operations].
    + rewrite length_app. reflexivity.
    + lia.
  - rewrite (organize_file_no_folder self file_path s e Hlive Hmk) in H. discriminate.
Qed.

Lemma for_each_count {A} (f : nat -> A -> M nat) (l : list A) :
  (forall b x s b1 s1, f b x s = (Val b1, s1) ->
     length (operations s1) + b = length (operations s) + b1) ->
  forall b s b' s', for_each f l b s = (Val b', s') ->
    length (operations s') + b = length (operations s) + b'.
Proof.
  intros Hf. induction l as [|x l IH]; intros b s b' s' H; cbn [for_each] in H.
  - injection H as <- <-. reflexivity.
  - unfold bind in H. destruct (f b x s) as [[b1|e] s1] eqn:Hx; [|discriminate].
    pose proof (Hf _ _ _ _ _ Hx). pose proof (IH _ _ _ _ H). lia.
Qed.

Lemma organize_item_count (recurse : path -> M nat) (self : FileOrganizer)
    (current_dir : path) (b : nat) (name : string) (s s1 : state) (b1 : nat) :
  dry_run self = false ->
  (forall s0 n s2, recurse (current_dir ++ [name]) s0 = (Val n, s2) ->
     length (operations s2) = length (operations s0) + n) ->
  organize_item recurse self current_dir b name s = (Val b1, s1) ->
  length (operations s1) + b = length (operations s) + b1.
Proof.
  intros Hlive Hrec H.
  destruct (is_dir (fs s) (current_dir ++ [name])) eqn:Hdir.
  - rewrite (organize_item_directory recurse self current_dir b name s Hdir) in H.
    destruct (path_eqb current_dir directory); [|injection H as <- <-; lia].
    destruct (is_category self name); [injection H as <- <-; lia|].
    destruct (recursive self); [|injection H as <- <-; lia].
    unfold bind, print, ret in H.
    destruct (recurse (current_dir ++ [name]) _) as [[n|e] s2] eqn:Hr; [|discriminate].
    injection H as <- <-. apply Hrec in Hr. cbn [operations] in Hr. lia.
  - unfold organize_item in H.
    rewrite (bind_val _ _ s s false) in H by (unfold fs_get; now rewrite Hdir).
    destruct (should_ignore (ignore_patterns self) name); [injection H as <- <-; lia|].
    unfold bind, ret in H.
    destruct (organize_file self (current_dir ++ [name]) s) as [[ok|e] s2] eqn:Hf;
      [|discriminate].
    injection H as <- <-.
    pose proof (organize_file_count _ _ _ _ _ Hlive Hf). destruct ok; lia.
Qed.

Lemma organize_directory_count (self : FileOrganizer) :
  dry_run self = false ->
  forall depth current_dir s n s',
    organize_directory depth self current_dir s = (Val n, s') ->
    length (operations s') = length (operations s) + n.
Proof.
  intros Hlive. induction depth as [|depth IH]; intros current_dir s n s' H.
  - discriminate.
  - cbn [organize_directory] in H.
    destruct (iterdir (fs s) current_dir) as [items|e].
    + apply for_each_count in H; [lia|].
      intros b x s0 b1 s1 Hx. eapply organize_item_count; eauto.
    + destruct e; try discriminate. injection H as <- <-. cbn [operations]. lia.
Qed.

End TraversalEffect.

(** X7.  A traversal never loses track of a file.  Whatever the mode,
    the depth and the outcome (even when it raises half-way),
    [organize_directory] only appends records to [self.operations], and
    every regular file that was in the tree is afterwards either at the
    same path with the same content, or the source of one of the
    appended records. *)
Theorem organize_directory_tracks_every_file (self : FileOrganizer) (depth : nat)
    (current_dir : path) (s : state) :
  tracked s (snd (organize_directory depth self current_dir s)).
Proof. apply organize_directory_tracked. Qed.

(** X8.  In live mode the number of files that [organize_directory]
    reports as processed is the number of records it has appended to
    [self.operations]: every counted file is logged, and nothing else
    is. *)
Theorem organize_directory_counts_records (self : FileOrganizer) (depth : nat)
    (current_dir : path) (s s' : state) (n : nat)
    (Hlive : dry_run self = false)
    (Hrun : organize_directory depth self current_dir s = (Val n, s')) :
  length (operations s') = length (operations s) + n.
Proof. eapply organize_directory_count; eauto. Qed.

Lemma organize_directory_counts_records_witness :
  let self := default_organizer false false in
  let s := initial_state downloads 0 in
  dry_run self = false
  /\ (exists s', organize_directory traversal_depth self directory s = (Val 3, s')
                 /\ length (operations s') = length (operations s) + 3).
Proof.
  intros self s. split; [reflexivity|].
  eexists. split; [vm_compute; reflexivity|].
  eapply (organize_directory_counts_records self traversal_depth directory s _ 3 eq_refl).
  vm_compute. reflexivity.
Defined.

(* ================================================================== *)
(** ** Dry runs always complete *)

Section DryRunCompletes.
Import Filesystem FilesystemFacts.







End DryRunCompletes.



(* ================================================================== *)
(** ** The removal of empty folders *)

Section EmptyFolders.
Import Filesystem FilesystemFacts.

Lemma bind_exc {A B} (m : M A) (k : A -> M B) (s s' : state) (e : exn) :
  m s = (Exc e, s') -> bind m k s = (Exc e, s').
Proof. intros H. unfold bind. now rewrite H. Qed.

(** One turn of the loop: either the entry is an empty, readable folder
    and is removed, or nothing changes. *)
Lemma remove_if_empty_step (name : string) (s s' : state) :
  remove_if_empty tt name s = (Val tt, s') ->
  (fs s' = fs s /\ forall pm, lookup (fs s) [name] <> Some (Dir pm []))
  \/ (lookup (fs s) [name] = Some (Dir true []) /\ fs s' = detach [name] (fs s)).
Proof.
  intros H. unfold remove_if_empty in H.
  change (directory ++ [name]) with [name] in H.
  destruct (lookup (fs s) [name]) as [[pm d | pm es]|] eqn:Hl.
  - rewrite (bind_val _ _ s s false) in H
      by (unfold fs_get, is_dir; now rewrite Hl).
    injection H as <-. left. split; [reflexivity | discriminate].
  - rewrite (bind_val _ _ s s true) in H
      by (unfold fs_get, is_dir; now rewrite Hl).
    destruct pm.
    + rewrite (bind_val _ _ s s (map fst es)) in H
        by (unfold fs_read, iterdir; now rewrite Hl).
      destruct es as [|e es]; cbn [map is_nil] in H.
      * unfold try_except, bind, fs_op, print, rmdir in H. rewrite Hl in H.
        cbn in H. injection H as <-. right. split; reflexivity.
      * injection H as <-. left. split; [reflexivity | discriminate].
    + rewrite (bind_exc _ _ s s PermissionError) in H
        by (unfold fs_read, iterdir; now rewrite Hl).
      discriminate.
  - rewrite (bind_val _ _ s s false) in H
      by (unfold fs_get, is_dir; now rewrite Hl).
    injection H as <-. left. split; [reflexivity | discriminate].
Qed.

Lemma lookup_detach_top (x y : string) (t : node) :
  lookup (detach [x] t) [y] = if String.eqb x y then None else lookup t [y].
Proof.
  destruct t as [pm d | pm es]; [now destruct (String.eqb x y)|].
  unfold detach. change (parent [x]) with (@nil string). change (basename [x]) with x.
  change (lookup (alter_dir (del_entry x) [] (Dir pm es)) [y])
    with (match get_entry y (del_entry x es) with
          | Some t' => Some t'
          | None => None
          end).
  cbn [lookup]. destruct (String.eqb_spec x y) as [->|Hxy].
  - now rewrite get_entry_del_same.
  - rewrite get_entry_del_other by congruence. reflexivity.
Qed.

(** Taking an empty folder out of the organised directory keeps every
    file. *)
Lemma detach_empty_files_kept (x : string) (t : node) (pm : bool) :
  lookup t [x] = Some (Dir pm []) -> files_kept t (detach [x] t).
Proof.
  intros Hx q pm' d Hq.
  rewrite lookup_detach_unrelated; [exact Hq | discriminate | |].
  - destruct q as [|k [|k' r]].
    + simpl in Hq. injection Hq as ->. discriminate.
    + simpl. rewrite andb_true_r. apply String.eqb_neq. intros ->. congruence.
    + simpl. now rewrite andb_false_r.
  - apply not_true_is_false. intros Hp. apply is_prefix_iff in Hp.
    destruct Hp as [r ->]. rewrite lookup_app, Hx in Hq.
    destruct r; discriminate.
Qed.

Lemma remove_loop (items : list string) :
  forall s s',
    for_each remove_if_empty items tt s = (Val tt, s') ->
    (forall x, lookup (fs s') [x] = lookup (fs s) [x] \/ lookup (fs s') [x] = None)
    /\ (forall x pm, In x items -> lookup (fs s') [x] <> Some (Dir pm []))
    /\ files_kept (fs s) (fs s').
Proof.
  induction items as [|y items IH]; intros s s' H; cbn [for_each] in H.
  - injection H as <-. split; [now left|]. split; [intros x pm []|].
    intros q pm d Hq. exact Hq.
  - unfold bind in H.
    destruct (remove_if_empty tt y s) as [[[]|e] s1] eqn:Hy; [|discriminate].
    destruct (IH _ _ H) as (Hshrink & Hdone & Hkept).
    assert (Hstep : (forall x, lookup (fs s1) [x] = lookup (fs s) [x]
                               \/ lookup (fs s1) [x] = None)
                    /\ (forall pm, lookup (fs s1) [y] <> Some (Dir pm []))
                    /\ files_kept (fs s) (fs s1)).
    { destruct (remove_if_empty_step _ _ _ Hy) as [[Hf Hne] | [Hemp Hf]]; rewrite Hf.
      - split; [now left|]. split; [exact Hne | intros q pm d Hq; exact Hq].
      - split; [|split].
        + intros x. rewrite lookup_detach_top. destruct (String.eqb y x); auto.
        + intros pm. rewrite lookup_detach_top, String.eqb_refl. discriminate.
        + eapply detach_empty_files_kept; eauto. }
    destruct Hstep as (Hshrink1 & Hy1 & Hkept1).
    split; [|split].
    + intros x. destruct (Hshrink x) as [E | E]; [|now right].
      rewrite E. apply Hshrink1.
    + intros x pm [Hx | Hin]; [subst x|now apply Hdone].
      destruct (Hshrink y) as [E | E]; rewrite E; [apply Hy1 | discriminate].
    + intros q pm d Hq. apply Hkept. now apply Hkept1.
Qed.

End EmptyFolders.

Lemma remove_empty_folders_post (s s' : state)
    (Hdone : remove_empty_folders s = (Val tt, s')) :
  (forall name pm, Filesystem.lookup (fs s') [name] <> Some (Dir pm []))
  /\ files_kept (fs s) (fs s').
Proof.
  unfold remove_empty_folders, bind, fs_read in Hdone.
  destruct (Filesystem.iterdir (fs s) directory) as [items|e] eqn:Hit; [|discriminate].
  destruct (remove_loop items _ _ Hdone) as (Hshrink & Hnone & Hkept).
  split; [|exact Hkept].
  intros name pm.
  unfold Filesystem.iterdir in Hit. simpl in Hit.
  destruct (fs s) as [pm0 d0 | [|] es] eqn:Hfs; try discriminate.
  injection Hit as <-.
  destruct (Hshrink name) as [E | E]; [|rewrite E; discriminate].
  destruct (Filesystem.lookup (Dir true es) [name]) as [n|] eqn:Hl.
  - apply Hnone. simpl in Hl.
    destruct (Filesystem.get_entry name es) eqn:Hg; [|discriminate].
    eapply FilesystemFacts.get_entry_in; eauto.
  - rewrite E. discriminate.
Qed.

(** X10.  When the pass that removes the empty folders completes, no
    folder directly inside the organised directory is empty any more,
    whether the organizer had created it or not, and every regular file
    is where it was.  (On this file system [rmdir] of an empty folder
    does not fail.) *)
Theorem remove_empty_folders_leaves_no_empty_folder (s s' : state)
    (Hdone : remove_empty_folders s = (Val tt, s')) :
  (forall name pm, Filesystem.lookup (fs s') [name] <> Some (Dir pm []))
  /\ files_kept (fs s) (fs s').
Proof. exact (remove_empty_folders_post s s' Hdone). Qed.

Lemma remove_empty_folders_leaves_no_empty_folder_witness :
  let t := Dir true [("keep", Dir true [("a.txt", plain "a")]);
                     ("mine", Dir true []); ("b.txt", plain "b")] in
  let s := initial_state t 0 in
  let s' := mkState (Dir true [("keep", Dir true [("a.txt", plain "a")]);
                               ("b.txt", plain "b")])
                    0 [RemovedEmptyFolder "mine"] [] in
  remove_empty_folders s = (Val tt, s')
  /\ (forall name pm, Filesystem.lookup (fs s') [name] <> Some (Dir pm []))
  /\ files_kept (fs s) (fs s').
Proof.
  intros t s s'. split; [reflexivity|].
  exact (remove_empty_folders_leaves_no_empty_folder s s' eq_refl).
Defined.

(* ================================================================== *)
(** ** Directories under moves, and the log file *)

Section DirsAndLog.
Import Filesystem FilesystemFacts.

Lemma is_dir_attach (p q : path) (n t : node) :
  p <> [] -> is_prefix p q = false -> is_dir (attach p n t) q = is_dir t q.
Proof.
  intros Hp H. unfold attach. rewrite (path_split p Hp) in H.
  apply (is_dir_alter_dir _ (basename p)); auto.
  intros es k Hk. now apply get_entry_put_other.
Qed.

Lemma is_dir_below_missing (t : node) (p r : path) :
  lookup t p = None -> is_dir t (p ++ r) = false.
Proof. intros H. unfold is_dir. now rewrite (lookup_below_missing t p r H). Qed.

Lemma is_dir_below_file (t : node) (p r : path) (pm : bool) (d : fdata) :
  lookup t p = Some (File pm d) -> is_dir t (p ++ r) = false.
Proof. apply lookup_below_file_dir. Qed.

(** Moving a regular file to a free place neither makes nor unmakes a
    directory. *)
Lemma move_file_dirs (src dst : path) (t t' : node) (pm : bool) (d : fdata) (q : path) :
  shutil_move src dst t = Val t' ->
  lookup t src = Some (File pm d) ->
  exists_ t dst = false ->
  is_dir t' q = is_dir t q.
Proof.
  intros Hmv Hsrc Hdst.
  assert (Hnone : lookup t dst = None).
  { unfold exists_ in Hdst. now destruct (lookup t dst). }
  destruct (move_file_lands _ _ _ _ _ _ Hmv Hsrc Hdst) as [Hl1 Hl2].
  destruct (shutil_move_file _ _ _ _ _ _ Hmv Hsrc Hdst)
    as (_ & Hsne & Hdne & Hpar & Hpre & Ht').
  destruct (is_prefix src q) eqn:Hs.
  { apply is_prefix_iff in Hs. destruct Hs as [r ->].
    rewrite (is_dir_below_missing t' src r Hl2).
    now rewrite (is_dir_below_file t src r pm d Hsrc). }
  destruct (is_prefix dst q) eqn:Hd.
  { apply is_prefix_iff in Hd. destruct Hd as [r ->].
    rewrite (is_dir_below_file t' dst r pm d Hl1).
    now rewrite (is_dir_below_missing t dst r Hnone). }
  subst t'. rewrite is_dir_attach by auto. now rewrite is_dir_detach by auto.
Qed.



(** A folder that exists needs no making. *)
Lemma put_entry_same_value (c : string) (n : node) (es : entries) :
  get_entry c es = Some n -> put_entry c n es = es.
Proof.
  induction es as [|[k v] es IH]; simpl; [discriminate|].
  destruct (String.eqb_spec k c) as [->|Hk].
  - intros [= ->]. reflexivity.
  - intros H. now rewrite IH.
Qed.

Lemma mkdir_parents_existing (p : path) :
  forall t, is_dir t p = true -> mkdir_parents p t = Val t.
Proof.
  induction p as [|c p IH]; intros t Hd.
  - unfold is_dir in Hd. simpl in Hd. destruct t; [discriminate | reflexivity].
  - unfold is_dir in Hd. destruct t as [pm d | pm es]; [discriminate|].
    cbn [lookup] in Hd. cbn [mkdir_parents].
    destruct (get_entry c es) as [t'|] eqn:Hc; [|discriminate].
    rewrite (IH t') by exact Hd. now rewrite put_entry_same_value.
Qed.



End DirsAndLog.





(* ================================================================== *)
(** ** Organize, then undo *)

Section RoundTrip.
Import FilesystemFacts.










(** A directory lies on the way to whatever lies below it. *)
Lemma is_dir_above (t : node) (p : path) (c : string) (n : node) :
  lookup t (p ++ [c]) = Some n -> is_dir t p = true.
Proof.
  intros H. destruct (lookup_parent_dir _ _ _ _ H) as [pm [es [Hd _]]].
  unfold is_dir. now rewrite Hd.
Qed.












End RoundTrip.



Section Asymmetries.
Import Filesystem FilesystemFacts.

(** [shutil.move] of a regular file onto an existing regular file
    replaces it. *)
Lemma shutil_move_onto_file (src dst : path) (t : node) (d d2 : fdata) (pm2 : bool) :
  lookup t src = Some (File true d) ->
  lookup t dst = Some (File pm2 d2) ->
  src <> dst ->
  shutil_move src dst t = Val (attach dst (File true d) (detach src t))
  /\ lookup (attach dst (File true d) (detach src t)) dst = Some (File true d)
  /\ lookup (attach dst (File true d) (detach src t)) src = None
  /\ is_dir t (parent dst) = true.
Proof.
  intros Hsrc Hdst Hne.
  assert (Hsne : src <> []).
  { intros ->. simpl in Hsrc. injection Hsrc as ->.
    destruct dst; [congruence | discriminate]. }
  assert (Hdne : dst <> []).
  { intros ->. simpl in Hdst. injection Hdst as ->.
    destruct src; [congruence | discriminate]. }
  assert (Hpar : is_dir t (parent dst) = true).
  { rewrite (path_split dst Hdne) in Hdst. eapply is_dir_above; eauto. }
  assert (Hp1 : is_prefix src dst = false).
  { apply not_true_is_false. intros H. apply is_prefix_iff in H. destruct H as [r ->].
    destruct r as [|x r]; [now rewrite app_nil_r in Hne|].
    rewrite (lookup_below_file t src (x :: r) true d Hsrc) in Hdst; discriminate. }
  assert (Hp2 : is_prefix dst src = false).
  { apply not_true_is_false. intros H. apply is_prefix_iff in H. destruct H as [r ->].
    destruct r as [|x r]; [now rewrite app_nil_r in Hne|].
    rewrite (lookup_below_file t dst (x :: r) pm2 d2 Hdst) in Hsrc; discriminate. }
  assert (Hp3 : is_prefix src (parent dst) = false).
  { apply not_true_is_false. intros H. apply is_prefix_iff in H. destruct H as [r Hr].
    rewrite Hr in Hpar. now rewrite (is_dir_below_file t src r true d Hsrc) in Hpar. }
  assert (Hpar' : is_dir (detach src t) (parent dst) = true).
  { now rewrite is_dir_detach. }
  split; [|split; [|split]].
  - unfold shutil_move. unfold is_dir at 1. rewrite Hdst.
    unfold os_rename. rewrite Hsrc.
    destruct src as [|a src']; [contradiction|].
    destruct dst as [|b dst']; [contradiction|].
    destruct (path_eqb (a :: src') (b :: dst')) eqn:Heq.
    { apply path_eqb_eq in Heq. congruence. }
    rewrite Hp1, Hpar, Hdst. reflexivity.
  - now apply lookup_attach_same.
  - rewrite lookup_attach_unrelated by auto. eapply lookup_detach_same; eauto.
  - exact Hpar.
Qed.

End Asymmetries.

(** X14.  Undo does not look before it restores: a regular file that
    has meanwhile appeared at the old path of a recorded move is
    replaced by the restored file, its content is lost, and the message
    is the one of a plain restore.  ([organize_file], in contrast, never
    overwrites.) *)
Theorem undo_one_overwrites_file_at_old_path (success_count : nat) (op : operation)
    (s : state) (d d2 : fdata) (pm2 : bool)
    (Hnew : Filesystem.lookup (fs s) (new_path op) = Some (File true d))
    (Hold : Filesystem.lookup (fs s) (old_path op) = Some (File pm2 d2))
    (Hdiff : new_path op <> old_path op) :
  exists t',
    undo_one success_count op s =
    (Val (success_count + 1),
     mkState t' (clock s)
             (stdout s ++ [Restored (Filesystem.basename (new_path op)) (old_path op)])
             (operations s))
    /\ Filesystem.lookup t' (old_path op) = Some (File true d)
    /\ Filesystem.lookup t' (new_path op) = None.
Proof.
  destruct (shutil_move_onto_file _ _ _ _ _ _ Hnew Hold Hdiff) as (Hmv & Hl1 & Hl2 & Hpar).
  eexists. split; [|split; [exact Hl1 | exact Hl2]].
  unfold undo_one.
  rewrite (bind_val _ _ s s true)
    by (unfold fs_get, Filesystem.exists_; now rewrite Hnew).
  cbn [negb]. unfold try_except, bind, fs_op, print, ret.
  rewrite (mkdir_parents_existing _ _ Hpar). cbn [fs set_fs].
  rewrite Hmv. reflexivity.
Qed.

Lemma undo_one_overwrites_file_at_old_path_witness :
  let t := Dir true [("Documents", Dir true [("notes.txt", plain "old")]);
                     ("notes.txt", plain "new")] in
  let op := mkOp ["notes.txt"] ["Documents"; "notes.txt"] 0 in
  let s := initial_state t 0 in
  Filesystem.lookup (fs s) (new_path op) = Some (File true (Text "old"))
  /\ Filesystem.lookup (fs s) (old_path op) = Some (File true (Text "new"))
  /\ new_path op <> old_path op
  /\ exists t',
       fs (snd (undo_one 0 op s)) = t'
       /\ Filesystem.lookup t' ["notes.txt"] = Some (File true (Text "old")).
Proof.
  intros t op s.
  assert (Hd : new_path op <> old_path op) by discriminate.
  split; [reflexivity|]. split; [reflexivity|]. split; [exact Hd|].
  destruct (undo_one_overwrites_file_at_old_path 0 op s (Text "old") (Text "new") true
              eq_refl eq_refl Hd) as [t' [Hu [Hl _]]].
  exists t'. split; [now rewrite Hu | exact Hl].
Defined.

(** X15.  A file that already lies in the folder of its own category is
    not left alone when the loop reaches it: [organize_file] finds its
    name taken (by the file itself) and renames it inside the folder,
    with a number appended to the stem.  The loop reaches such files in
    [Others], which is not a key of the category map and so is entered
    by a recursive run like any other subdirectory. *)
Theorem organize_item_renames_file_in_others (recurse : path -> M nat)
    (self : FileOrganizer) (files_processed : nat) (name : string)
    (s : state) (d : fdata)
    (Hlive : dry_run self = false)
    (Hfile : Filesystem.lookup (fs s) ["Others"; name] = Some (File true d))
    (Hcat : get_category (categories self) (PyStr.suffix name) = "Others")
    (Hign : should_ignore (ignore_patterns self) name = false) :
  exists j s',
    1 <= j
    /\ organize_item recurse self ["Others"] files_processed name s
       = (Val (files_processed + 1), s')
    /\ Filesystem.lookup (fs s')
         ["Others"; candidate (PyStr.stem name) (PyStr.suffix name) j]
       = Some (File true d)
    /\ Filesystem.lookup (fs s') ["Others"; name] = None
    /\ operations s' =
       operations s ++
       [mkOp ["Others"; name]
             ["Others"; candidate (PyStr.stem name) (PyStr.suffix name) j] (clock s)].
Proof.
  set (fp := ["Others"; name]).
  assert (Hbase : Filesystem.basename fp = name) by reflexivity.
  assert (Hdir : Filesystem.is_dir (fs s) ["Others"] = true).
  { apply (is_dir_above (fs s) ["Others"] name _ Hfile). }
  assert (Hmk : Filesystem.mkdir (directory ++ [get_category (categories self)
                   (PyStr.suffix (Filesystem.basename fp))]) (fs s) = Val (fs s)).
  { rewrite Hbase, Hcat. unfold Filesystem.mkdir, Filesystem.is_dir in *.
    change (directory ++ ["Others"]) with ["Others"].
    destruct (Filesystem.lookup (fs s) ["Others"]) as [[pm0 d0 | pm0 es0]|];
      try discriminate. reflexivity. }
  destruct (free_candidate (fs s) ["Others"] (PyStr.stem name) (PyStr.suffix name))
    as [j0 [Hj0 Hfree0]].
  destruct (allocate_complete (fs s) ["Others"] (PyStr.stem name) (PyStr.suffix name)
              (allocate_fuel (fs s) ["Others"]) (["Others"] ++ [name]) 1 j0)
    as [dst Hdst]; [lia | exact Hfree0 |].
  destruct (allocate_sound _ _ _ _ _ _ _ _ Hdst)
    as [Hfree [-> | [_ [j [Hj [-> _]]]]]].
  { exfalso. unfold Filesystem.exists_ in Hfree.
    change (["Others"] ++ [name]) with fp in Hfree. unfold fp in Hfree.
    now rewrite Hfile in Hfree. }
  change (["Others"] ++ [candidate (PyStr.stem name) (PyStr.suffix name) j])
    with ["Others"; candidate (PyStr.stem name) (PyStr.suffix name) j] in *.
  set (dst := ["Others"; candidate (PyStr.stem name) (PyStr.suffix name) j]) in *.
  assert (Hmv : Filesystem.shutil_move fp dst (fs s) =
                Val (Filesystem.attach dst (File true d) (Filesystem.detach fp (fs s)))).
  { apply shutil_move_file_ok; [exact Hfile | exact Hfree | discriminate | exact Hdir]. }
  destruct (move_file_lands _ _ _ _ _ _ Hmv Hfile Hfree) as [Hl1 Hl2].
  pose proof (organize_file_live self fp s (fs s) dst Hlive) as Hof.
  cbv zeta in Hof. rewrite Hbase, Hcat in Hof.
  specialize (Hof ltac:(rewrite Hbase, Hcat in Hmk; exact Hmk) Hdst).
  rewrite Hmv in Hof.
  exists j. eexists. split; [lia|]. split.
  - unfold organize_item. change (["Others"] ++ [name]) with fp.
    rewrite (bind_val _ _ s s false).
    2:{ unfold fs_get, Filesystem.is_dir. unfold fp. now rewrite Hfile. }
    rewrite Hign. unfold bind. rewrite Hof. reflexivity.
  - cbn [fs operations]. split; [exact Hl1 | split; [exact Hl2 | reflexivity]].
Qed.

Lemma organize_item_renames_file_in_others_witness :
  let self := default_organizer true false in
  let t := Dir true [("Others", Dir true [("data.xyz", plain "x")])] in
  let s := initial_state t 0 in
  dry_run self = false
  /\ Filesystem.lookup (fs s) ["Others"; "data.xyz"] = Some (File true (Text "x"))
  /\ get_category (categories self) (PyStr.suffix "data.xyz") = "Others"
  /\ should_ignore (ignore_patterns self) "data.xyz" = false
  /\ is_category self "Others" = false
  /\ (exists j s',
        organize_item (organize_directory 1 self) self ["Others"] 0 "data.xyz" s
        = (Val 1, s')
        /\ Filesystem.lookup (fs s')
             ["Others"; candidate (PyStr.stem "data.xyz") (PyStr.suffix "data.xyz") j]
           = Some (File true (Text "x")))
  /\ fs (snd (run self s)) =
     Dir true [("Others", Dir true [("data_1.xyz", plain "x")]);
               (".organizer_log.json",
                File true (LogJson 1 [mkOp ["Others"; "data.xyz"]
                                           ["Others"; "data_1.xyz"] 0]))].
Proof.
  intros self t s.
  split; [reflexivity|]. split; [reflexivity|]. split; [reflexivity|].
  split; [reflexivity|]. split; [reflexivity|]. split; [|vm_compute; reflexivity].
  destruct (organize_item_renames_file_in_others (organize_directory 1 self) self 0
              "data.xyz" s (Text "x") eq_refl eq_refl eq_refl eq_refl)
    as [j [s' [_ [H1 [H2 _]]]]].
  exists j, s'. split; [exact H1 | exact H2].
Defined.


(* ================================================================== *)
(** ** Live runs that complete *)

Section LiveRunCompletes.
Import Filesystem FilesystemFacts.








End LiveRunCompletes.



(* ================================================================== *)
(** ** What a traversal can reach *)

Section Reach.
Import Filesystem FilesystemFacts.

Lemma out_of_reach_kept_same (self : FileOrganizer) (cur : path) (s s' : state) :
  fs s' = fs s -> out_of_reach_kept self cur s s'.
Proof. intros H q pm d Hq. left. now rewrite H. Qed.

Lemma out_of_reach_kept_trans (self : FileOrganizer) (cur : path) (s1 s2 s3 : state) :
  out_of_reach_kept self cur s1 s2 -> out_of_reach_kept self cur s2 s3 ->
  out_of_reach_kept self cur s1 s3.
Proof.
  intros H12 H23 q pm d Hq. destruct (H12 q pm d Hq) as [H | H]; [|now right].
  now apply H23.
Qed.

Lemma organize_item_reach (recurse : path -> M nat) (self : FileOrganizer)
    (current_dir : path) (b : nat) (name : string) (s : state) :
  (forall s', out_of_reach_kept self (current_dir ++ [name]) s'
                (snd (recurse (current_dir ++ [name]) s'))) ->
  out_of_reach_kept self current_dir s
    (snd (organize_item recurse self current_dir b name s)).
Proof.
  intros Hrec.
  destruct (is_dir (fs s) (current_dir ++ [name])) eqn:Hdir.
  - rewrite (organize_item_directory recurse self current_dir b name s Hdir).
    destruct (path_eqb current_dir directory) eqn:Hroot;
      [|now apply out_of_reach_kept_same].
    apply path_eqb_eq in Hroot.
    destruct (is_category self name) eqn:Hcat; [now apply out_of_reach_kept_same|].
    destruct (recursive self) eqn:Hrecur; [|now apply out_of_reach_kept_same].
    unfold bind, print.
    pose proof (Hrec (mkState (fs s) (clock s) (stdout s ++ [Entering name])
                              (operations s))) as Hr.
    assert (Hr' : out_of_reach_kept self current_dir s
                    (snd (recurse (current_dir ++ [name])
                            (mkState (fs s) (clock s) (stdout s ++ [Entering name])
                                     (operations s))))).
    { intros q pm d Hq. destruct (Hr q pm d Hq) as [H | [[x ->] | [Hc _]]].
      - now left.
      - right. right. subst current_dir. split; [reflexivity|]. split; [exact Hrecur|].
        exists name, x. split; [reflexivity | exact Hcat].
      - exfalso. subst current_dir. discriminate. }
    destruct (recurse (current_dir ++ [name]) _) as [[n|e] s']; exact Hr'.
  - unfold organize_item.
    rewrite (bind_val _ _ s s false) by (unfold fs_get; now rewrite Hdir).
    destruct (should_ignore (ignore_patterns self) name);
      [now apply out_of_reach_kept_same|].
    unfold bind.
    assert (Hf : out_of_reach_kept self current_dir s
                   (snd (organize_file self (current_dir ++ [name]) s))).
    { intros q pm d Hq.
      destruct (organize_file_effect self (current_dir ++ [name]) s Hdir)
        as [(_ & Hk & _) | (_ & _ & x & d' & _ & _ & Hk & _)].
      - left. now apply Hk.
      - destruct (list_eq_dec string_dec q (current_dir ++ [name])) as [->|Hne].
        + right. left. now exists name.
        + left. now apply Hk. }
    destruct (organize_file self (current_dir ++ [name]) s) as [[ok|e] s']; exact Hf.
Qed.

Lemma organize_directory_reach (self : FileOrganizer) :
  forall depth current_dir s,
    out_of_reach_kept self current_dir s
      (snd (organize_directory depth self current_dir s)).
Proof.
  induction depth as [|depth IH]; intros current_dir s.
  - now apply out_of_reach_kept_same.
  - cbn [organize_directory].
    destruct (iterdir (fs s) current_dir) as [items|e].
    + apply for_each_rel.
      * intros s0. now apply out_of_reach_kept_same.
      * apply out_of_reach_kept_trans.
      * intros b x s'. apply organize_item_reach. intros s''. apply IH.
    + destruct e; now apply out_of_reach_kept_same.
Qed.

End Reach.

(** X17.  What a traversal of the organised directory leaves alone,
    whatever its outcome: without recursion, every file that lies
    inside a subfolder; with or without it, every file inside a folder
    named like a key of the category map.  Such files are still at
    their paths, unchanged, afterwards. *)
Theorem organize_directory_leaves_files_out_of_reach (self : FileOrganizer)
    (depth : nat) (s : state) (q : path) (pm : bool) (d : fdata)
    (Hfile : Filesystem.lookup (fs s) q = Some (File pm d))
    (Hout : (recursive self = false /\ length q <> 1)
            \/ (exists c r, q = c :: r /\ r <> [] /\ is_category self c = true)) :
  Filesystem.lookup (fs (snd (organize_directory depth self directory s))) q
  = Some (File pm d).
Proof.
  destruct (organize_directory_reach self depth directory s q pm d Hfile)
    as [H | [[x ->] | (_ & Hrec & n & x & -> & Hcat)]]; [exact H | |]; exfalso.
  - destruct Hout as [[_ Hlen] | (c & r & Hq & Hr & _)].
    + now apply Hlen.
    + injection Hq as _ <-. now apply Hr.
  - destruct Hout as [[Hnr _] | (c & r & Hq & _ & Hc)].
    + congruence.
    + injection Hq as <- _. congruence.
Qed.

Lemma organize_directory_leaves_files_out_of_reach_witness :
  let self := default_organizer true false in
  let t := Dir true [("a.txt", plain "a");
                     ("Images", Dir true [("notes.txt", plain "n")])] in
  let s := initial_state t 0 in
  Filesystem.lookup (fs s) ["Images"; "notes.txt"] = Some (File true (Text "n"))
  /\ is_category self "Images" = true
  /\ Filesystem.lookup
       (fs (snd (organize_directory traversal_depth self directory s)))
       ["Images"; "notes.txt"] = Some (File true (Text "n")).
Proof.
  intros self t s. split; [reflexivity|]. split; [reflexivity|].
  apply (organize_directory_leaves_files_out_of_reach self traversal_depth s
           ["Images"; "notes.txt"] true (Text "n") eq_refl).
  right. exists "Images", ["notes.txt"].
  split; [reflexivity|]. split; [discriminate | reflexivity].
Defined.

(* ================================================================== *)
(** ** Undo into folders that are gone *)

Section RecreateFolders.
Import Filesystem FilesystemFacts.

(** [mkdir(parents=True, exist_ok=True)] with no file on the way: the
    folder is there afterwards, every file is kept, and nothing appears
    off the way. *)
Lemma mkdir_parents_makes (p : path) :
  forall t,
    (forall q pm d, is_prefix q p = true -> lookup t q <> Some (File pm d)) ->
    exists t',
      mkdir_parents p t = Val t'
      /\ is_dir t' p = true
      /\ (forall q pm d, lookup t q = Some (File pm d) -> lookup t' q = Some (File pm d))
      /\ (forall q, lookup t q = None -> is_prefix q p = false -> lookup t' q = None).
Proof.
  induction p as [|c p IH]; intros t Hway;
    (destruct t as [pm0 d0 | pm0 es];
     [exfalso; apply (Hway [] pm0 d0); reflexivity|]).
  - exists (Dir pm0 es). repeat split; auto.
  - cbn [mkdir_parents].
    destruct (get_entry c es) as [tc|] eqn:Hc.
    + destruct (IH tc) as [tc' (Hmk & Hd & Hk & Hn)].
      { intros q pm' d' Hq Hl. apply (Hway (c :: q) pm' d').
        - cbn [is_prefix]. now rewrite String.eqb_refl.
        - cbn [lookup]. now rewrite Hc. }
      rewrite Hmk. eexists. split; [reflexivity|]. split; [|split].
      * unfold is_dir in *. cbn [lookup]. now rewrite get_entry_put_same.
      * intros q pm' d' Hl. destruct q as [|k q]; [discriminate|].
        cbn [lookup] in *. destruct (String.eqb_spec k c) as [->|Hk'].
        -- rewrite get_entry_put_same. rewrite Hc in Hl. now apply Hk.
        -- now rewrite get_entry_put_other.
      * intros q Hl Hp. destruct q as [|k q]; [discriminate|].
        cbn [lookup is_prefix] in *. destruct (String.eqb_spec k c) as [->|Hk'].
        -- rewrite get_entry_put_same. rewrite Hc in Hl. now apply Hn.
        -- now rewrite get_entry_put_other.
    + destruct (IH (Dir true [])) as [tc' (Hmk & Hd & Hk & Hn)].
      { intros q pm' d' Hq Hl. destruct q; discriminate. }
      rewrite Hmk. eexists. split; [reflexivity|]. split; [|split].
      * unfold is_dir in *. cbn [lookup]. now rewrite get_entry_put_same.
      * intros q pm' d' Hl. destruct q as [|k q]; [discriminate|].
        cbn [lookup] in *. destruct (String.eqb_spec k c) as [->|Hk'].
        -- rewrite Hc in Hl. discriminate.
        -- now rewrite get_entry_put_other.
      * intros q Hl Hp. destruct q as [|k q]; [discriminate|].
        cbn [lookup is_prefix] in *. destruct (String.eqb_spec k c) as [->|Hk'].
        -- rewrite get_entry_put_same. apply Hn; [|exact Hp].
           destruct q; [discriminate | reflexivity].
        -- now rewrite get_entry_put_other.
Qed.

Lemma not_prefix_of_parent (p : path) : p <> [] -> is_prefix p (parent p) = false.
Proof.
  intros Hp. apply not_true_is_false. intros H.
  apply is_prefix_iff in H. destruct H as [r Hr].
  pose proof (path_split p Hp) as Hs. rewrite Hr in Hs.
  apply (f_equal (@length string)) in Hs. rewrite !length_app in Hs.
  simpl in Hs. lia.
Qed.

End RecreateFolders.

(** X18.  Undo recreates the folders it needs.  When the folder a file
    came from has been removed since (with no file standing in the way
    of making it again) and the old path is free, one turn of the
    restore loop makes the missing folders, moves the file back to its
    old path with its content, and leaves every other file where it
    is. *)
Theorem undo_one_recreates_missing_folders (success_count : nat) (op : operation)
    (s : state) (d : fdata)
    (Hnew : Filesystem.lookup (fs s) (new_path op) = Some (File true d))
    (Hfree : Filesystem.exists_ (fs s) (old_path op) = false)
    (Hold : old_path op <> [])
    (Hway : forall q pm' d',
        Filesystem.is_prefix q (Filesystem.parent (old_path op)) = true ->
        Filesystem.lookup (fs s) q <> Some (File pm' d')) :
  exists s',
    undo_one success_count op s = (Val (success_count + 1), s')
    /\ Filesystem.is_dir (fs s') (Filesystem.parent (old_path op)) = true
    /\ Filesystem.lookup (fs s') (old_path op) = Some (File true d)
    /\ Filesystem.lookup (fs s') (new_path op) = None
    /\ files_kept_except (new_path op) (fs s) (fs s').
Proof.
  destruct (mkdir_parents_makes _ (fs s) Hway) as [t1 (Hmk & Hd & Hk & Hn)].
  pose proof (Hk _ _ _ Hnew) as Hnew1.
  assert (Hfree1 : Filesystem.exists_ t1 (old_path op) = false).
  { unfold Filesystem.exists_ in *.
    rewrite Hn; [reflexivity | | now apply not_prefix_of_parent].
    now destruct (Filesystem.lookup (fs s) (old_path op)). }
  pose proof (shutil_move_file_ok _ _ t1 d Hnew1 Hfree1 Hold Hd) as Hmv.
  destruct (move_file_lands _ _ _ _ _ _ Hmv Hnew1 Hfree1) as [Hl1 Hl2].
  eexists. split; [|split; [|split; [|split]]].
  - unfold undo_one.
    rewrite (bind_val _ _ s s true)
      by (unfold fs_get, Filesystem.exists_; now rewrite Hnew).
    cbn [negb]. unfold try_except, bind, fs_op, print, ret.
    rewrite Hmk. cbn [fs set_fs]. rewrite Hmv. reflexivity.
  - cbn [fs]. rewrite (move_file_dirs _ _ _ _ _ _ _ Hmv Hnew1 Hfree1). exact Hd.
  - exact Hl1.
  - exact Hl2.
  - cbn [fs]. intros q pm' d' Hq Hl.
    apply (move_files_kept _ _ _ _ _ _ Hmv Hnew1 Hfree1); auto.
Qed.

Lemma undo_one_recreates_missing_folders_witness :
  let t := Dir true [("Audio", Dir true [("song.mp3", plain "m")])] in
  let op := mkOp ["music"; "song.mp3"] ["Audio"; "song.mp3"] 0 in
  let s := initial_state t 0 in
  Filesystem.lookup (fs s) (new_path op) = Some (File true (Text "m"))
  /\ Filesystem.is_dir (fs s) ["music"] = false
  /\ exists s',
       undo_one 0 op s = (Val 1, s')
       /\ Filesystem.lookup (fs s') ["music"; "song.mp3"] = Some (File true (Text "m")).
Proof.
  intros t op s. split; [reflexivity|]. split; [reflexivity|].
  assert (Hold : old_path op <> []) by discriminate.
  assert (Hway : forall q pm' d',
             Filesystem.is_prefix q (Filesystem.parent (old_path op)) = true ->
             Filesystem.lookup (fs s) q <> Some (File pm' d')).
  { intros q pm' d' Hq Hl. destruct q as [|k [|k' q]]; [discriminate Hl | | ].
    - simpl in Hq. rewrite andb_true_r in Hq. apply String.eqb_eq in Hq. subst k.
      discriminate Hl.
    - simpl in Hq. rewrite andb_false_r in Hq. discriminate Hq. }
  destruct (undo_one_recreates_missing_folders 0 op s (Text "m") eq_refl eq_refl
              Hold Hway) as [s' [Hu [_ [Hl _]]]].
  exists s'. split; [exact Hu | exact Hl].
Defined.
